(** * Gremlins: the [unleash] command and the coverage phase

    A shallow embedding of [cmd/unleash.go] and [pkg/coverage/coverage.go].

    Go values are modelled as follows.
    - [string] is Rocq's byte string; [int] and [time.Duration] are [Z]
      (no arithmetic of the modelled code can overflow).
    - [error] is [option error]: [None] is Go's [nil].
    - A Go function with effects is a state transformer over [State]; the
      answers of the operating system, of the Go standard library calls whose
      algorithm is not modelled and of the packages of the repository that
      are not part of the two embedded files are read from an [Env].
    - [map[string][]Block] is a [gmap string (list Block)]. *)

From Stdlib Require Import ZArith Lia Ascii String.
From stdpp Require Import base strings list gmap.

Local Open Scope Z_scope.

(** ** Errors *)

(** A Go [error] value that is not [nil].  [ErrExternal] is an error produced
    by a collaborator; [Errorf] is [fmt.Errorf(format, args..., wrapped)] with a
    [%w] verb. *)
Inductive error : Type :=
| ErrExternal (msg : string)
| ErrInvalid
| Errorf (format : string) (args : list string) (wrapped : error).

(** ** The part of Go's [strings] package used by the code *)

Fixpoint mapString (f : ascii → ascii) (s : string) : string :=
  match s with
  | EmptyString => EmptyString
  | String c s' => String (f c) (mapString f s')
  end.

(** [intersperse_new new s] is [strings.ReplaceAll (s, "", new)] without its
    leading [new]: one copy of [new] after every byte. *)
Fixpoint intersperse_new (new s : string) : string :=
  match s with
  | EmptyString => EmptyString
  | String c s' => String c (new +:+ intersperse_new new s')
  end.

(** The scan of [strings.ReplaceAll] for a non-empty [old]: [skip] counts the
    bytes of the current match that are still to be dropped. *)
Fixpoint replaceAll_scan (old new : string) (skip : nat) (s : string) : string :=
  match s with
  | EmptyString => EmptyString
  | String c s' =>
      match skip with
      | S k => replaceAll_scan old new k s'
      | O =>
          if String.prefix old s
          then new +:+ replaceAll_scan old new (String.length old - 1) s'
          else String c (replaceAll_scan old new 0 s')
      end
  end.

(** [strings.ReplaceAll(s, old, new)]: all non-overlapping instances of [old],
    found from left to right, are replaced by [new].  For an empty [old] Go
    matches before every rune and at the end; the model does so before every
    byte, which is the same on ASCII strings. *)
Definition strings_ReplaceAll (s old new : string) : string :=
  match old with
  | EmptyString => new +:+ intersperse_new new s
  | String _ _ => replaceAll_scan old new 0 s
  end.

Definition isUpperByte (c : ascii) : bool :=
  (65 <=? nat_of_ascii c)%nat && (nat_of_ascii c <=? 90)%nat.

Definition toLowerByte (c : ascii) : ascii :=
  if isUpperByte c then ascii_of_nat (nat_of_ascii c + 32) else c.

(** [strings.ToLower] on ASCII strings: the letters 'A'..'Z' are mapped to
    'a'..'z'.  Bytes above 127 are left alone by the model (Go would lower
    non-ASCII letters too); mutant identifiers are ASCII. *)
Definition strings_ToLower (s : string) : string := mapString toLowerByte s.

Fixpoint dropString (n : nat) (s : string) : string :=
  match n, s with
  | O, _ => s
  | S _, EmptyString => EmptyString
  | S k, String _ s' => dropString k s'
  end.

(** [strings.TrimPrefix(s, prefix)]. *)
Definition strings_TrimPrefix (s pre : string) : string :=
  if String.prefix pre s then dropString (String.length pre) s else s.

(** The double quote character, and Go's [%q] on a string of printable ASCII
    without quote or backslash. *)
Definition dquote : string := String "034"%char EmptyString.
Definition fmt_q (s : string) : string := dquote +:+ s +:+ dquote.

(** ** Data of the collaborating packages *)

Module gomodule.
(** [gomodule.GoModule]: the fields the two files read. *)
Record GoModule : Type := mkGoModule {
  Name : string;
  Root : string;
  PkgDir : string
}.
End gomodule.

Module cover.
(** [golang.org/x/tools/cover]: [ProfileBlock] and [Profile]. *)
Record ProfileBlock : Type := mkProfileBlock {
  StartLine : Z;
  StartCol : Z;
  EndLine : Z;
  EndCol : Z;
  NumStmt : Z;
  Count : Z
}.

Record Profile : Type := mkProfile {
  FileName : string;
  Mode : string;
  Blocks : list ProfileBlock
}.
End cover.

Module exec.
Inductive Writer : Type := os_Stdout | os_Stderr.

(** [os/exec.Cmd]: the fields the code sets or that identify the command. *)
Record Cmd : Type := mkCmd {
  Path : string;
  Args : list string;
  Stdout : option Writer;
  Stderr : option Writer
}.

(** [exec.Command(name, arg...)]: [Args] holds the command name followed by
    its arguments. *)
Definition Command (name : string) (args : list string) : Cmd :=
  {| Path := name; Args := name :: args; Stdout := None; Stderr := None |}.

Definition withStdout (w : Writer) (c : Cmd) : Cmd :=
  {| Path := Path c; Args := Args c; Stdout := Some w; Stderr := Stderr c |}.

Definition withStderr (w : Writer) (c : Cmd) : Cmd :=
  {| Path := Path c; Args := Args c; Stdout := Stdout c; Stderr := Some w |}.
End exec.

(** ** Data of [pkg/coverage] *)

(** [coverage.Block]. *)
Record Block : Type := mkBlock {
  StartLine : Z;
  StartCol : Z;
  EndLine : Z;
  EndCol : Z
}.

(** [coverage.Profile] is [map[string][]Block].  Go's [nil] map reads like the
    empty map, and the code never writes to a [nil] map. *)
Abbreviation Profile := (gmap string (list Block)).

Definition nilProfile : Profile := ∅.

(** [coverage.Result]. *)
Record Result : Type := mkResult {
  ResultProfile : Profile;
  Elapsed : Z
}.

(** [Result{}]. *)
Definition zeroResult : Result := {| ResultProfile := nilProfile; Elapsed := 0 |}.

Definition execContext : Type := string → list string → exec.Cmd.

(** [coverage.Coverage]. *)
Record Coverage : Type := mkCoverage {
  cmdContext : execContext;
  workDir : string;
  path : string;
  fileName : string;
  mod_ : gomodule.GoModule;
  buildTags : string
}.

(** [coverage.Option]. *)
Definition Option : Type := Coverage → Coverage.

(** An open [os.File]: its name and its contents. *)
Record File : Type := mkFile {
  file_name : string;
  file_data : string
}.

(** ** Data of [pkg/report], [pkg/mutant] and [cmd/internal/flags] *)

Module mutant.
(** Modelled from the spec: [pkg/mutant] is not among the embedded files; the
    kinds are the closed enumeration of the data model. *)
Inductive Type_ : Type :=
| ConditionalsBoundary
| ConditionalsNegation
| IncrementsDecrements
| InvertNegatives
| ArithmeticBase.

(** Modelled from the spec: the closed enumeration of mutant statuses. *)
Inductive Status : Type :=
| NotCovered
| Runnable
| Lived
| Killed
| NotViable
| TimedOut.
End mutant.

Module report.
(** Modelled from the spec: [report.Results] is declared in [pkg/report],
    which is not among the embedded files: the aggregate of the mutant
    outcomes with the elapsed time of the coverage and of the mutation
    phase. *)
Record Results : Type := mkResults {
  Mutants : list (mutant.Type_ * mutant.Status);
  CoverageElapsed : Z;
  MutationElapsed : Z
}.

(** [report.Results{}]. *)
Definition zero : Results :=
  {| Mutants := []; CoverageElapsed := 0; MutationElapsed := 0 |}.
End report.

Module flags.
(** The [DefaultV any] of a flag: the code stores a [bool], a [string] or a
    [float64]; the only [float64] it stores is the integer constant
    [float64(0)], kept as that integer. *)
Inductive Value : Type :=
| VBool (b : bool)
| VString (s : string)
| VFloat64 (x : Z).

(** [flags.Flag]. *)
Record Flag : Type := mkFlag {
  Name : string;
  CfgKey : string;
  Shorthand : string;
  DefaultV : Value;
  Usage : string
}.
End flags.

(** ** The world the code runs in *)

(** A [context.Context] as one run of the command observes it, together with
    the scheduling of the goroutine that waits on [ctx.Done()].
    [ctxLive]: [Done()] is not closed while the command runs.
    [ctxDone handled]: [Done()] is closed during the run; [handled] tells
    whether the waiting goroutine has executed [onCancel()] by the time the
    command goroutine reads the variable [cancelled]. *)
Inductive Context : Type :=
| ctxLive
| ctxDone (handled : bool).

(** Calls that leave the process or reach a collaborator, as recorded in the
    trace of a run. *)
Inductive Event : Type :=
| EvGetwd
| EvChdir (dir : string)
| EvMkdirTemp (dir pattern : string)
| EvRemoveAll (name : string)
| EvExec (c : exec.Cmd)
| EvOpen (name : string)
| EvClose (f : option File)
| EvParseProfiles (f : option File)
| EvModuleInit (dir : string)
| EvMutatorRun (ctx : Context) (workdir : string) (m : gomodule.GoModule) (r : Result)
| EvReportDo (r : report.Results).

Inductive LogLevel : Type := Info | Error.

Inductive LogArg : Type :=
| LStr (s : string)
| LErr (e : error)
| LDuration (d : Z).

Record LogLine : Type := mkLogLine {
  log_level : LogLevel;
  log_format : string;
  log_args : list LogArg
}.

(** The state a run threads: the monotonic clock (nanoseconds), the process
    working directory, the temporary directories created by the process that
    still exist, the trace of calls (oldest first) and the log output. *)
Record State : Type := mkState {
  now : Z;
  cwd : string;
  tempDirs : gset string;
  trace : list Event;
  logged : list LogLine
}.

(** The answers of everything outside the two embedded files. *)
Record Env : Type := mkEnv {
  (* time each call takes *)
  env_duration : Event → Z;
  (* os, path/filepath *)
  env_getwdErr : option error;
  env_filepathAbs : string → string → string * option error;
  env_filepathRel : string → string → string * option error;
  env_chdirErr : string → option error;
  env_tempDir : string;
  env_mkdirTempErr : option error;
  env_random : string;
  env_removeAllErr : string → option error;
  env_open : string → File + error;
  env_closeErr : File → option error;
  (* os/exec *)
  env_runErr : exec.Cmd → option error;
  (* golang.org/x/tools/cover *)
  env_parseProfiles : File → list cover.Profile + error;
  (* configuration *)
  env_configString : string → string;
  cfg_UnleashTagsKey : string;
  cfg_UnleashDryRunKey : string;
  cfg_UnleashOutputKey : string;
  cfg_UnleashThresholdEfficacyKey : string;
  cfg_UnleashThresholdMCoverageKey : string;
  cfg_MutantTypeEnabledKey : mutant.Type_ → string;
  cfg_IsDefaultEnabled : mutant.Type_ → bool;
  (* internal/gomodule, pkg/mutator, pkg/report, pkg/mutant, cmd/internal/flags *)
  env_moduleInit : string → gomodule.GoModule + error;
  env_mutatorRun : Context → string → gomodule.GoModule → Result → report.Results;
  env_reportDo : report.Results → option error;
  mutant_MutantTypes : list mutant.Type_;
  mutant_String : mutant.Type_ → string;
  env_flagSetErr : flags.Flag → option error
}.

(** Effectful Go code: a reader of [Env] and a transformer of [State]. *)
Definition M (A : Type) : Type := Env → State → A * State.

Global Instance M_ret : MRet M := λ A a _ st, (a, st).
Global Instance M_bind : MBind M :=
  λ A B f m env st, let '(a, st') := m env st in f a env st'.

Definition ask {A : Type} (f : Env → A) : M A := λ env st, (f env, st).
Definition get {A : Type} (f : State → A) : M A := λ _ st, (f st, st).
Definition modify (f : State → State) : M unit := λ _ st, (tt, f st).

(** A call recorded as [e]: the clock advances by the time the call takes. *)
Definition call (e : Event) : M unit :=
  λ env st,
    (tt, {| now := now st + env_duration env e; cwd := cwd st;
            tempDirs := tempDirs st; trace := trace st ++ [e];
            logged := logged st |}).

Definition setCwd (d : string) : M unit :=
  modify (λ st, {| now := now st; cwd := d; tempDirs := tempDirs st;
                   trace := trace st; logged := logged st |}).

Definition setTempDirs (f : gset string → gset string) : M unit :=
  modify (λ st, {| now := now st; cwd := cwd st; tempDirs := f (tempDirs st);
                   trace := trace st; logged := logged st |}).

Definition log_write (l : LogLevel) (format : string) (args : list LogArg) : M unit :=
  modify (λ st, {| now := now st; cwd := cwd st; tempDirs := tempDirs st;
                   trace := trace st;
                   logged := logged st ++ [mkLogLine l format args] |}).

(** [log.Infof], [log.Infoln], [log.Errorf]; format strings are kept as the
    source spells them. *)
Definition log_Infof := log_write Info.
Definition log_Infoln (msg : string) := log_write Info msg [].
Definition log_Errorf := log_write Error.

(** [os.Getwd]. *)
Definition os_Getwd : M (string * option error) :=
  call EvGetwd;;
  err ← ask env_getwdErr;
  match err with
  | Some e => mret (EmptyString, Some e)
  | None => d ← get cwd; mret (d, None)
  end.

(** [filepath.Abs]. *)
Definition filepath_Abs (p : string) : M (string * option error) :=
  d ← get cwd; abs ← ask env_filepathAbs; mret (abs d p).

(** [os.Chdir]. *)
Definition os_Chdir (dir : string) : M (option error) :=
  call (EvChdir dir);;
  err ← ask (λ env, env_chdirErr env dir);
  match err with
  | Some e => mret (Some e)
  | None => setCwd dir;; mret None
  end.

(** [os.TempDir]. *)
Definition os_TempDir : M string := ask env_tempDir.

Fixpoint endsWithSeparator (s : string) : bool :=
  match s with
  | EmptyString => false
  | String c EmptyString => if ascii_dec c "/"%char then true else false
  | String _ s' => endsWithSeparator s'
  end.

(** [joinPath] of Go's [os] package. *)
Definition joinPath (dir name : string) : string :=
  if endsWithSeparator dir then dir +:+ name else dir +:+ "/" +:+ name.

(** [os.MkdirTemp(dir, pattern)] for a pattern without ['*']: a new directory
    named [pattern] followed by a random string is created in [dir]. *)
Definition os_MkdirTemp (dir pattern : string) : M (string * option error) :=
  call (EvMkdirTemp dir pattern);;
  err ← ask env_mkdirTempErr;
  match err with
  | Some e => mret (EmptyString, Some e)
  | None =>
      rnd ← ask env_random;
      let name := joinPath dir (pattern +:+ rnd) in
      setTempDirs (λ ds, ds ∪ {[name]});;
      mret (name, None)
  end.

(** [os.RemoveAll]. *)
Definition os_RemoveAll (name : string) : M (option error) :=
  call (EvRemoveAll name);;
  err ← ask (λ env, env_removeAllErr env name);
  match err with
  | Some e => mret (Some e)
  | None => setTempDirs (λ ds, ds ∖ {[name]});; mret None
  end.

(** [os.Open]: a handle and no error, or the [nil] handle and an error. *)
Definition os_Open (name : string) : M (option File * option error) :=
  call (EvOpen name);;
  r ← ask (λ env, env_open env name);
  match r with
  | inl f => mret (Some f, None)
  | inr e => mret (None, Some e)
  end.

(** [Close] of [os.File]: on the [nil] handle it returns [ErrInvalid]. *)
Definition File_Close (cf : option File) : M (option error) :=
  call (EvClose cf);;
  match cf with
  | None => mret (Some ErrInvalid)
  | Some f => ask (λ env, env_closeErr env f)
  end.

(** [Run] of [exec.Cmd]. *)
Definition Cmd_Run (c : exec.Cmd) : M (option error) :=
  call (EvExec c);; ask (λ env, env_runErr env c).

(** [time.Now] and [time.Since], on the monotonic clock. *)
Definition time_Now : M Z := get now.
Definition time_Since (start : Z) : M Z := t ← get now; mret (t - start).

(** [cover.ParseProfilesFromReader]; reading from the [nil] handle fails with
    [ErrInvalid]. *)
Definition cover_ParseProfilesFromReader (data : option File)
  : M (list cover.Profile * option error) :=
  call (EvParseProfiles data);;
  match data with
  | None => mret ([], Some ErrInvalid)
  | Some f =>
      r ← ask (λ env, env_parseProfiles env f);
      match r with
      | inl ps => mret (ps, None)
      | inr e => mret ([], Some e)
      end
  end.

(** [filepath.Rel]. *)
Definition filepath_Rel (base targ : string) : M (string * option error) :=
  rel ← ask env_filepathRel; mret (rel base targ).

(** [configuration.Get[string]]. *)
Definition configuration_Get_string (key : string) : M string :=
  ask (λ env, env_configString env key).

(** [gomodule.Init]. *)
Definition gomodule_Init (dir : string) : M (gomodule.GoModule + error) :=
  call (EvModuleInit dir);; ask (λ env, env_moduleInit env dir).

(** [workdir.NewDealer], [mutator.New] and [Run] of the mutator: one call of
    the mutation phase, which puts its sandboxes below [workdir] and leaves
    the working directory of the process alone. *)
Definition mutator_Run (ctx : Context) (workdir : string)
    (m : gomodule.GoModule) (p : Result) : M report.Results :=
  call (EvMutatorRun ctx workdir m p);;
  ask (λ env, env_mutatorRun env ctx workdir m p).

(** [report.Do]. *)
Definition report_Do (r : report.Results) : M (option error) :=
  call (EvReportDo r);; ask (λ env, env_reportDo env r).

(** ** [pkg/coverage/coverage.go] *)

(** [NewWithCmd]. *)
Definition NewWithCmd (cmdContext : execContext) (workdir : string)
    (m : gomodule.GoModule) (opts : list Option) : M Coverage :=
  key ← ask cfg_UnleashTagsKey;
  buildTags ← configuration_Get_string key;
  let c := {| cmdContext := cmdContext;
              workDir := workdir;
              path := "./...";
              fileName := "coverage";
              mod_ := m;
              buildTags := buildTags |} in
  mret (fold_left (λ c opt, opt c) opts c).

(** [New]. *)
Definition New (workdir : string) (m : gomodule.GoModule) (opts : list Option)
  : M Coverage :=
  NewWithCmd exec.Command workdir m opts.

(** [filePath]: [fmt.Sprintf("%v/%v", c.workDir, c.fileName)]. *)
Definition filePath (c : Coverage) : string :=
  workDir c +:+ "/" +:+ fileName c.

(** [downloadModules]. *)
Definition downloadModules (c : Coverage) : M (option error) :=
  let cmd := cmdContext c "go" ["mod"; "download"] in
  let cmd := exec.withStdout exec.os_Stdout cmd in
  let cmd := exec.withStderr exec.os_Stderr cmd in
  Cmd_Run cmd.

(** The [args] that [executeCoverage] builds. *)
Definition coverageArgs (c : Coverage) : list string :=
  let args := ["test"] in
  let args := if decide (buildTags c ≠ "") then args ++ ["-tags"; buildTags c]
              else args in
  args ++ ["-cover"; "-coverprofile"; filePath c; path c].

(** [executeCoverage]. *)
Definition executeCoverage (c : Coverage) : M (Z * option error) :=
  let cmd := cmdContext c "go" (coverageArgs c) in
  let cmd := exec.withStderr exec.os_Stderr cmd in
  start ← time_Now;
  err ← Cmd_Run cmd;
  match err with
  | Some e => mret (0, Some e)
  | None => d ← time_Since start; mret (d, None)
  end.

(** [removeModuleFromPath]; the error of [filepath.Rel] is dropped. *)
Definition removeModuleFromPath (c : Coverage) (p : cover.Profile) : M string :=
  let path := strings_ReplaceAll (cover.FileName p)
                (gomodule.Name (mod_ c) +:+ "/") "" in
  '(path, _) ← filepath_Rel (gomodule.PkgDir (mod_ c)) path;
  mret path.

(** The [Block] that [parse] builds from a block of the report. *)
Definition blockOf (b : cover.ProfileBlock) : Block :=
  {| StartLine := cover.StartLine b;
     StartCol := cover.StartCol b;
     EndLine := cover.EndLine b;
     EndCol := cover.EndCol b |}.

(** The inner loop of [parse], [for _, b := range p.Blocks]. *)
Fixpoint parse_blocks (c : Coverage) (p : cover.Profile)
    (bs : list cover.ProfileBlock) (status : Profile) : M Profile :=
  match bs with
  | [] => mret status
  | b :: bs' =>
      if decide (cover.Count b = 0) then parse_blocks c p bs' status
      else
        let block := blockOf b in
        fn ← removeModuleFromPath c p;
        parse_blocks c p bs' (<[fn := default [] (status !! fn) ++ [block]]> status)
  end.

(** The outer loop of [parse], [for _, p := range profiles]. *)
Fixpoint parse_profiles (c : Coverage) (ps : list cover.Profile)
    (status : Profile) : M Profile :=
  match ps with
  | [] => mret status
  | p :: ps' =>
      status ← parse_blocks c p (cover.Blocks p) status;
      parse_profiles c ps' status
  end.

(** [parse]. *)
Definition parse (c : Coverage) (data : option File) : M (Profile * option error) :=
  '(profiles, err) ← cover_ParseProfilesFromReader data;
  match err with
  | Some e => mret (nilProfile, Some e)
  | None =>
      status ← parse_profiles c profiles ∅;
      mret (status, None)
  end.

(** [getProfile]; the deferred [cf.Close()] runs when the function returns,
    on every path. *)
Definition getProfile (c : Coverage) : M (Profile * option error) :=
  '(cf, err) ← os_Open (filePath c);
  r ← match err with
      | Some e => mret (nilProfile, Some e)
      | None =>
          '(profile, err) ← parse c cf;
          match err with
          | Some e => mret (nilProfile, Some e)
          | None => mret (profile, None)
          end
      end;
  File_Close cf;;
  mret r.

(** [Run]. *)
Definition Run (c : Coverage) : M (Result * option error) :=
  log_Infof "Gathering coverage... " [];;
  err ← downloadModules c;
  match err with
  | Some e =>
      mret (zeroResult, Some (Errorf "impossible to download modules: %w" [] e))
  | None =>
      '(elapsed, err) ← executeCoverage c;
      match err with
      | Some e =>
          mret (zeroResult,
                Some (Errorf "impossible to executeCoverage coverage: %w" [] e))
      | None =>
          log_Infof "done in %s\n" [LDuration elapsed];;
          '(profile, err) ← getProfile c;
          match err with
          | Some e =>
              mret (zeroResult,
                    Some (Errorf "an error occurred while generating coverage profile: %w" [] e))
          | None => mret ({| ResultProfile := profile; Elapsed := elapsed |}, None)
          end
      end
  end.

(** ** [cmd/unleash.go] *)

Definition commandName : string := "unleash".
Definition paramBuildTags : string := "tags".
Definition paramDryRun : string := "dry-run".
Definition paramOutput : string := "output".
Definition paramThresholdEfficacy : string := "threshold-efficacy".
Definition paramThresholdMCoverage : string := "threshold-mcover".

(** [cleanUp]. *)
Definition cleanUp (wd rd : string) : M unit :=
  err ← os_Chdir rd;
  match err with
  | Some e =>
      log_Errorf "impossible to move back to original folder: %s\n\t%s"
        [LErr e; LStr wd]
  | None => mret tt
  end;;
  err ← os_RemoveAll wd;
  match err with
  | Some e =>
      log_Errorf "impossible to remove temporary folder: %s\n\t%s"
        [LErr e; LStr wd]
  | None => mret tt
  end.

(** [run]. *)
Definition run (ctx : Context) (workDir currPath : string)
  : M (report.Results * option error) :=
  r ← gomodule_Init currPath;
  match r with
  | inr e =>
      mret (report.zero, Some (Errorf "%q is not in a Go module: %w" [currPath] e))
  | inl m =>
      c ← New workDir m [];
      '(p, err) ← Run c;
      match err with
      | Some e =>
          mret (report.zero, Some (Errorf "failed to gather coverage: %w" [] e))
      | None =>
          results ← mutator_Run ctx workDir m p;
          mret (results, None)
      end
  end.

(** [changePath]. *)
Definition changePath (args : list string) (chdir : string → M (option error))
    (getwd : M (string * option error)) : M (string * string * option error) :=
  '(rd, err) ← getwd;
  match err with
  | Some e => mret (EmptyString, EmptyString, Some e)
  | None =>
      '(cp, _) ← os_Getwd;
      '(cp, _) ← match args with
                 | a0 :: _ => filepath_Abs a0
                 | [] => mret (cp, None)
                 end;
      if decide (cp ≠ ".") then
        err ← chdir cp;
        match err with
        | Some e => mret (EmptyString, EmptyString, Some e)
        | None => mret (cp, rd, None)
        end
      else mret (cp, rd, None)
  end.

(** The variables of [runUnleash] that its two closures assign. *)
Record Locals : Type := mkLocals {
  results : report.Results;
  err_ : option error;
  cancelled : bool
}.

(** [runWithCancel].  The derived context [c] is done exactly when [ctx] is:
    [cancel()] is called only after [ctx.Done()] is closed.  The goroutine
    that waits on [ctx.Done()] runs concurrently with [runner]; its log line
    and [onCancel()] take effect in the model when the [Context] says that it
    got that far before [wg.Wait()] returned and [cancelled] was read. *)
Definition runWithCancel (ctx : Context) (runner : Context → Locals → M Locals)
    (onCancel : Locals → Locals) (l : Locals) : M Locals :=
  l ← runner ctx l;
  match ctx with
  | ctxDone true =>
      log_Infof "\nShutting down gracefully...\n" [];;
      mret (onCancel l)
  | _ => mret l
  end.

(** The statements of [runUnleash] that follow [defer cleanUp(workDir, runDir)]:
    the two closures handed to [runWithCancel] assign [results], [err] and
    [cancelled]; after [wg.Wait()] the outcome is read from them. *)
Definition runUnleash_body (ctx : Context) (workDir currPath : string)
  : M (option error) :=
  l ← runWithCancel ctx
        (λ c l,
           '(results, err) ← run c workDir currPath;
           mret {| results := results; err_ := err; cancelled := cancelled l |})
        (λ l, {| results := results l; err_ := err_ l; cancelled := true |})
        {| results := report.zero; err_ := None; cancelled := false |};
  match err_ l with
  | Some e => mret (Some e)
  | None =>
      if cancelled l then mret None
      else report_Do (results l)
  end.

(** The function returned by [runUnleash(ctx)]; the deferred [cleanUp] runs
    on every return that follows the [defer] statement. *)
Definition runUnleash (ctx : Context) (args : list string) : M (option error) :=
  log_Infoln "Starting...";;
  '(currPath, runDir, err) ← changePath args os_Chdir os_Getwd;
  match err with
  | Some e => mret (Some e)
  | None =>
      tmp ← os_TempDir;
      '(workDir, err) ← os_MkdirTemp tmp "gremlins-";
      match err with
      | Some e => mret (Some (Errorf "impossible to create the workdir: %w" [] e))
      | None =>
          ret ← runUnleash_body ctx workDir currPath;
          cleanUp workDir runDir;;
          mret ret
      end
  end.

(** The part of a [cobra.Command] that the file sets, with the flags
    registered on it. *)
Record Command : Type := mkCommand {
  Use : string;
  Aliases : list string;
  MaxArgs : nat;
  Short : string;
  RunE : list string → M (option error);
  SortFlags : bool;
  NormalizeFunc : option (string → string);
  Flags : list flags.Flag
}.

(** Modelled from the spec: [flags.Set] of [cmd/internal/flags], which is not
    among the embedded files, registers the flag on the command with its
    name, shorthand, default value and usage; it can fail. *)
Definition flags_Set (cmd : Command) (f : flags.Flag) : M (Command * option error) :=
  err ← ask (λ env, env_flagSetErr env f);
  match err with
  | Some e => mret (cmd, Some e)
  | None =>
      mret ({| Use := Use cmd; Aliases := Aliases cmd; MaxArgs := MaxArgs cmd;
               Short := Short cmd; RunE := RunE cmd; SortFlags := SortFlags cmd;
               NormalizeFunc := NormalizeFunc cmd;
               Flags := Flags cmd ++ [f] |}, None)
  end.

(** The function literal that [setFlagsOnCmd] passes to [SetNormalizeFunc]. *)
Definition normalizeFunc (name : string) : string :=
  let from := ["."; "_"] in
  let to := "-" in
  fold_left (λ name sep, strings_ReplaceAll name sep to) from name.

(** The flag that [setMutantTypeFlags] builds for the kind [mt]. *)
Definition mutantTypeFlag (mt : mutant.Type_) : M flags.Flag :=
  name ← ask (λ env, mutant_String env mt);
  let usage := "enable " +:+ fmt_q name +:+ " mutants" in
  let param := strings_ReplaceAll name "_" "-" in
  let param := strings_ToLower param in
  confKey ← ask (λ env, cfg_MutantTypeEnabledKey env mt);
  dflt ← ask (λ env, cfg_IsDefaultEnabled env mt);
  mret {| flags.Name := param;
          flags.CfgKey := confKey;
          flags.Shorthand := EmptyString;
          flags.DefaultV := flags.VBool dflt;
          flags.Usage := usage |}.

(** The loop [for _, f := range ...] over flags to set: it stops at the
    first error. *)
Fixpoint setFlags (cmd : Command) (fls : list (M flags.Flag)) : M (Command * option error) :=
  match fls with
  | [] => mret (cmd, None)
  | mf :: fls' =>
      f ← mf;
      '(cmd, err) ← flags_Set cmd f;
      match err with
      | Some e => mret (cmd, Some e)
      | None => setFlags cmd fls'
      end
  end.

(** [setMutantTypeFlags]. *)
Definition setMutantTypeFlags (cmd : Command) : M (Command * option error) :=
  mts ← ask mutant_MutantTypes;
  setFlags cmd (mutantTypeFlag <$> mts).

(** The table [fls] of [setFlagsOnCmd]. *)
Definition unleashFlags : list (M flags.Flag) :=
  [ k ← ask cfg_UnleashDryRunKey;
    mret (flags.mkFlag paramDryRun k "d" (flags.VBool false)
            "find mutations but do not executes tests");
    k ← ask cfg_UnleashTagsKey;
    mret (flags.mkFlag paramBuildTags k "t" (flags.VString "")
            "a comma-separated list of build tags");
    k ← ask cfg_UnleashOutputKey;
    mret (flags.mkFlag paramOutput k "o" (flags.VString "")
            "set the output file for machine readable results");
    k ← ask cfg_UnleashThresholdEfficacyKey;
    mret (flags.mkFlag paramThresholdEfficacy k "" (flags.VFloat64 0)
            "threshold for code-efficacy percent");
    k ← ask cfg_UnleashThresholdMCoverageKey;
    mret (flags.mkFlag paramThresholdMCoverage k "" (flags.VFloat64 0)
            "threshold for mutant-coverage percent") ].

(** [setFlagsOnCmd]. *)
Definition setFlagsOnCmd (cmd : Command) : M (Command * option error) :=
  let cmd := {| Use := Use cmd; Aliases := Aliases cmd; MaxArgs := MaxArgs cmd;
                Short := Short cmd; RunE := RunE cmd; SortFlags := false;
                NormalizeFunc := Some normalizeFunc; Flags := Flags cmd |} in
  '(cmd, err) ← setFlags cmd unleashFlags;
  match err with
  | Some e => mret (cmd, Some e)
  | None => setMutantTypeFlags cmd
  end.

(** [newUnleashCmd]; the long help text is left out. *)
Definition newUnleashCmd (ctx : Context) : M (option Command * option error) :=
  let cmd := {| Use := commandName +:+ " [path]";
                Aliases := ["run"; "r"];
                MaxArgs := 1;
                Short := "Unleash the gremlins.";
                RunE := runUnleash ctx;
                SortFlags := true;
                NormalizeFunc := None;
                Flags := [] |} in
  '(cmd, err) ← setFlagsOnCmd cmd;
  match err with
  | Some e => mret (None, Some e)
  | None => mret (Some cmd, None)
  end.

(** * Specification vocabulary *)

(** What the normalisation of flag names does to one byte. *)
Definition dashSeparator (c : ascii) : ascii :=
  if ascii_dec c "."%char then "-"%char
  else if ascii_dec c "_"%char then "-"%char
  else c.

Definition isSeparator (c : ascii) : bool :=
  bool_decide (c = "."%char) || bool_decide (c = "_"%char)
  || bool_decide (c = "-"%char).

(** Two names differ only by their separators: same length, and at every
    position either the same byte or a separator in both. *)
Fixpoint sameUpToSeparators (a b : string) : bool :=
  match a, b with
  | EmptyString, EmptyString => true
  | String x a', String y b' =>
      (bool_decide (x = y) || (isSeparator x && isSeparator y))
      && sameUpToSeparators a' b'
  | _, _ => false
  end.

Fixpoint occursIn (c : ascii) (s : string) : bool :=
  match s with
  | EmptyString => false
  | String x s' => bool_decide (x = c) || occursIn c s'
  end.

(** The key under which [parse] files the blocks of the report entry [p]. *)
Definition profileKey (env : Env) (c : Coverage) (p : cover.Profile) : string :=
  (env_filepathRel env (gomodule.PkgDir (mod_ c))
     (strings_ReplaceAll (cover.FileName p) (gomodule.Name (mod_ c) +:+ "/") "")).1.

(** The blocks of a report entry that were executed, as [Block]s. *)
Definition executedBlocks (bs : list cover.ProfileBlock) : list Block :=
  blockOf <$> filter (λ b, cover.Count b ≠ 0) bs.

(** The executed blocks, in report order, of the entries filed under [fn]. *)
Definition blocksFor (env : Env) (c : Coverage) (fn : string)
    (ps : list cover.Profile) : list Block :=
  mjoin ((λ p, if decide (profileKey env c p = fn)
               then executedBlocks (cover.Blocks p) else []) <$> ps).

(** Go's [m[fn]] on a [Profile]: the [nil] slice for a missing key. *)
Definition lookupBlocks (m : Profile) (fn : string) : list Block :=
  default [] (m !! fn).

(** The map [m] holds exactly the non-empty lists of [f]. *)
Definition holds (f : string → list Block) (m : Profile) : Prop :=
  ∀ fn, m !! fn = match f fn with [] => None | l => Some l end.

(** The key as the specification words it: the module name is stripped
    from the file path as a prefix, and the rest is made relative to the
    package directory. *)
Definition moduleRelativeKey (env : Env) (c : Coverage) (p : cover.Profile) : string :=
  (env_filepathRel env (gomodule.PkgDir (mod_ c))
     (strings_TrimPrefix (cover.FileName p) (gomodule.Name (mod_ c) +:+ "/"))).1.

(** The two commands of the coverage phase, as handed to [Run] of [exec.Cmd]. *)
Definition downloadCmd (c : Coverage) : exec.Cmd :=
  exec.withStderr exec.os_Stderr
    (exec.withStdout exec.os_Stdout (cmdContext c "go" ["mod"; "download"])).

Definition coverageCmd (c : Coverage) : exec.Cmd :=
  exec.withStderr exec.os_Stderr (cmdContext c "go" (coverageArgs c)).

(** [env] with the time that calls take replaced by [d]. *)
Definition withDuration (d : Event → Z) (env : Env) : Env :=
  {| env_duration := d;
     env_getwdErr := env_getwdErr env;
     env_filepathAbs := env_filepathAbs env;
     env_filepathRel := env_filepathRel env;
     env_chdirErr := env_chdirErr env;
     env_tempDir := env_tempDir env;
     env_mkdirTempErr := env_mkdirTempErr env;
     env_random := env_random env;
     env_removeAllErr := env_removeAllErr env;
     env_open := env_open env;
     env_closeErr := env_closeErr env;
     env_runErr := env_runErr env;
     env_parseProfiles := env_parseProfiles env;
     env_configString := env_configString env;
     cfg_UnleashTagsKey := cfg_UnleashTagsKey env;
     cfg_UnleashDryRunKey := cfg_UnleashDryRunKey env;
     cfg_UnleashOutputKey := cfg_UnleashOutputKey env;
     cfg_UnleashThresholdEfficacyKey := cfg_UnleashThresholdEfficacyKey env;
     cfg_UnleashThresholdMCoverageKey := cfg_UnleashThresholdMCoverageKey env;
     cfg_MutantTypeEnabledKey := cfg_MutantTypeEnabledKey env;
     cfg_IsDefaultEnabled := cfg_IsDefaultEnabled env;
     env_moduleInit := env_moduleInit env;
     env_mutatorRun := env_mutatorRun env;
     env_reportDo := env_reportDo env;
     mutant_MutantTypes := mutant_MutantTypes env;
     mutant_String := mutant_String env;
     env_flagSetErr := env_flagSetErr env |}.

(** The steps of the coverage phase that can fail. *)
Inductive CoverageStep : Type :=
| DownloadDependencies
| RunInstrumentedTests
| OpenReport
| ParseReport.

(** The first step of the coverage phase that fails, with its error. *)
Definition firstFailure (env : Env) (c : Coverage) : option (CoverageStep * error) :=
  match env_runErr env (downloadCmd c) with
  | Some e => Some (DownloadDependencies, e)
  | None =>
      match env_runErr env (coverageCmd c) with
      | Some e => Some (RunInstrumentedTests, e)
      | None =>
          match env_open env (filePath c) with
          | inr e => Some (OpenReport, e)
          | inl f =>
              match env_parseProfiles env f with
              | inr e => Some (ParseReport, e)
              | inl _ => None
              end
          end
      end
  end.

(** The format with which [Run] wraps the error of a step. *)
Definition stepFormat (step : CoverageStep) : string :=
  match step with
  | DownloadDependencies => "impossible to download modules: %w"
  | RunInstrumentedTests => "impossible to executeCoverage coverage: %w"
  | OpenReport | ParseReport =>
      "an error occurred while generating coverage profile: %w"
  end.

(** Kinds of events. *)
Definition isCoverageEvent (e : Event) : bool :=
  match e with
  | EvExec _ | EvOpen _ | EvClose _ | EvParseProfiles _ => true
  | _ => false
  end.

Definition isPipelineEvent (e : Event) : bool :=
  match e with
  | EvModuleInit _ | EvMutatorRun _ _ _ _ => true
  | _ => isCoverageEvent e
  end.

Definition isMutatorRun (e : Event) : bool :=
  match e with EvMutatorRun _ _ _ _ => true | _ => false end.

Definition isReportDo (e : Event) : bool :=
  match e with EvReportDo _ => true | _ => false end.

Definition isMkdirTemp (e : Event) : bool :=
  match e with EvMkdirTemp _ _ => true | _ => false end.

(** The number of events of the kind [P] in a trace. *)
Definition countEvents (P : Event → bool) (tr : list Event) : nat :=
  length (List.filter P tr).

(** [m] leaves the working directory and the temporary directories alone and
    only makes calls of the kind [P]. *)
Definition preserves {A : Type} (P : Event → bool) (m : M A) : Prop :=
  ∀ env st,
    cwd (m env st).2 = cwd st
    ∧ tempDirs (m env st).2 = tempDirs st
    ∧ ∃ evs, trace (m env st).2 = trace st ++ evs ∧ Forall (λ e, P e = true) evs.

(** The flag of a mutant kind as the specification words it: named by the
    identifier of the kind, lowercased, with ['_'] replaced by ['-']; a
    boolean whose default is the default state of the kind. *)
Definition isKindFlag (env : Env) (mt : mutant.Type_) (f : flags.Flag) : Prop :=
  flags.Name f = strings_ReplaceAll (strings_ToLower (mutant_String env mt)) "_" "-"
  ∧ flags.DefaultV f = flags.VBool (cfg_IsDefaultEnabled env mt)
  ∧ flags.CfgKey f = cfg_MutantTypeEnabledKey env mt
  ∧ flags.Shorthand f = EmptyString.

(** The directory [changePath] moves to: the absolute path of the first
    argument, or the current directory. *)
Definition currPathOf (env : Env) (args : list string) (st : State) : string :=
  match args with
  | a0 :: _ => (env_filepathAbs env (cwd st) a0).1
  | [] => cwd st
  end.

(** The error of [changePath], if any. *)
Definition changePathErr (env : Env) (args : list string) (st : State)
  : option error :=
  match env_getwdErr env with
  | Some e => Some e
  | None =>
      if decide (currPathOf env args st ≠ ".")
      then env_chdirErr env (currPathOf env args st)
      else None
  end.

(** The work root that [os.MkdirTemp] creates for the command. *)
Definition workRoot (env : Env) : string :=
  joinPath (env_tempDir env) ("gremlins-" +:+ env_random env).

(** The coverage that [run] builds with [New]; [New] does not look at the
    state. *)
Definition coverageOf (env : Env) (workDir : string) (m : gomodule.GoModule)
  : Coverage :=
  (New workDir m [] env
     {| now := 0; cwd := EmptyString; tempDirs := ∅; trace := []; logged := [] |}).1.

(** The error of [run], if any: the module cannot be found, or a step of
    the coverage phase fails. *)
Definition runError (env : Env) (workDir currPath : string) : option error :=
  match env_moduleInit env currPath with
  | inr e => Some (Errorf "%q is not in a Go module: %w" [currPath] e)
  | inl m =>
      match firstFailure env (coverageOf env workDir m) with
      | Some (step, e) =>
          Some (Errorf "failed to gather coverage: %w" []
                  (Errorf (stepFormat step) [] e))
      | None => None
      end
  end.

Definition isBodyEvent (e : Event) : bool := isPipelineEvent e || isReportDo e.

Definition isSetupEvent (e : Event) : bool :=
  match e with EvGetwd | EvChdir _ => true | _ => false end.

(** ** An environment for the examples *)

Definition exampleModule : gomodule.GoModule :=
  {| gomodule.Name := "example.com/m";
     gomodule.Root := "/src/m";
     gomodule.PkgDir := "." |}.

Definition exampleReport : list cover.Profile :=
  [ cover.mkProfile "example.com/m/a.go" "set"
      [cover.mkProfileBlock 3 1 5 2 2 1; cover.mkProfileBlock 7 1 9 2 1 0];
    cover.mkProfile "example.com/m/sub/b.go" "set"
      [cover.mkProfileBlock 1 1 2 2 1 4] ].

Definition exampleKindName (mt : mutant.Type_) : string :=
  match mt with
  | mutant.ConditionalsBoundary => "CONDITIONALS_BOUNDARY"
  | mutant.ConditionalsNegation => "CONDITIONALS_NEGATION"
  | mutant.IncrementsDecrements => "INCREMENT_DECREMENT"
  | mutant.InvertNegatives => "INVERT_NEGATIVES"
  | mutant.ArithmeticBase => "ARITHMETIC_BASE"
  end.

(** A module in [/src/m] tested from its root: every call succeeds unless
    the arguments say otherwise; the tests take 2000 ns, any other command
    700 and any other call 10;
    [filepath.Rel] is only asked for clean paths relative to ["."]. *)
Definition exampleEnvWith (tags : string) (chdirErr : string → option error)
    (open : string → File + error) : Env :=
  {| env_duration :=
       λ e, match e with
            | EvExec cmd =>
                match exec.Args cmd with _ :: "test" :: _ => 2000 | _ => 700 end
            | _ => 10
            end;
     env_getwdErr := None;
     env_filepathAbs := λ _ p, (p, None);
     env_filepathRel := λ _ targ, (targ, None);
     env_chdirErr := chdirErr;
     env_tempDir := "/tmp";
     env_mkdirTempErr := None;
     env_random := "1234";
     env_removeAllErr := λ _, None;
     env_open := open;
     env_closeErr := λ _, None;
     env_runErr := λ _, None;
     env_parseProfiles := λ _, inl exampleReport;
     env_configString :=
       λ key, if decide (key = "unleash.tags") then tags else EmptyString;
     cfg_UnleashTagsKey := "unleash.tags";
     cfg_UnleashDryRunKey := "unleash.dry-run";
     cfg_UnleashOutputKey := "unleash.output";
     cfg_UnleashThresholdEfficacyKey := "unleash.threshold.efficacy";
     cfg_UnleashThresholdMCoverageKey := "unleash.threshold.mutant-coverage";
     cfg_MutantTypeEnabledKey := λ mt, "mutants." +:+ exampleKindName mt +:+ ".enabled";
     cfg_IsDefaultEnabled :=
       λ mt, match mt with mutant.InvertNegatives => false | _ => true end;
     env_moduleInit := λ _, inl exampleModule;
     env_mutatorRun :=
       λ _ _ _ r, {| report.Mutants := [(mutant.ConditionalsBoundary, mutant.Killed)];
                     report.CoverageElapsed := Elapsed r;
                     report.MutationElapsed := 0 |};
     env_reportDo := λ _, None;
     mutant_MutantTypes :=
       [mutant.ConditionalsBoundary; mutant.ConditionalsNegation;
        mutant.IncrementsDecrements; mutant.InvertNegatives;
        mutant.ArithmeticBase];
     mutant_String := exampleKindName;
     env_flagSetErr := λ _, None |}.

Definition exampleOpen (name : string) : File + error :=
  inl {| file_name := name; file_data := "mode: set" |}.

Definition exampleEnv : Env := exampleEnvWith EmptyString (λ _, None) exampleOpen.

Definition exampleCoverage : Coverage :=
  {| cmdContext := exec.Command;
     workDir := "/tmp/gremlins-1234";
     path := "./...";
     fileName := "coverage";
     mod_ := exampleModule;
     buildTags := EmptyString |}.

Definition exampleCommand : Command :=
  {| Use := "unleash [path]"; Aliases := ["run"; "r"]; MaxArgs := 1;
     Short := "Unleash the gremlins."; RunE := runUnleash ctxLive;
     SortFlags := false; NormalizeFunc := Some normalizeFunc; Flags := [] |}.

Definition exampleState : State :=
  {| now := 0; cwd := "/home/dev"; tempDirs := ∅; trace := []; logged := [] |}.

(** A module named [example] with a package [myexample], and the entry of
    its coverage report for [myexample/file.go]. *)
Definition nestedCoverage : Coverage :=
  {| cmdContext := exec.Command;
     workDir := "/tmp/gremlins-1234";
     path := "./...";
     fileName := "coverage";
     mod_ := {| gomodule.Name := "example";
                gomodule.Root := "/src/example";
                gomodule.PkgDir := "." |};
     buildTags := EmptyString |}.

Definition nestedEntry : cover.Profile :=
  cover.mkProfile "example/myexample/file.go" "set"
    [cover.mkProfileBlock 3 1 5 2 2 1].

(** ** Vocabulary of the further properties *)

(** The calls of [Run], in order: each step is made only when the steps
    before it succeeded, and an opened report is closed. *)
Definition coverageCalls (env : Env) (c : Coverage) : list Event :=
  EvExec (downloadCmd c) ::
  match env_runErr env (downloadCmd c) with
  | Some _ => []
  | None =>
      EvExec (coverageCmd c) ::
      match env_runErr env (coverageCmd c) with
      | Some _ => []
      | None =>
          EvOpen (filePath c) ::
          match env_open env (filePath c) with
          | inr _ => [EvClose None]
          | inl f => [EvParseProfiles (Some f); EvClose (Some f)]
          end
      end
  end.

(** [old] occurs somewhere in [s]. *)
Fixpoint containsString (old s : string) : bool :=
  String.prefix old s
  || match s with
     | EmptyString => false
     | String _ s' => containsString old s'
     end.

(** The five flags of the table of [setFlagsOnCmd], with the keys of [env]. *)
Definition fixedFlags (env : Env) : list flags.Flag :=
  (λ mf : M flags.Flag,
     (mf env {| now := 0; cwd := EmptyString; tempDirs := ∅; trace := [];
                logged := [] |}).1) <$> unleashFlags.

(** The flag that [setMutantTypeFlags] hands to [flags.Set] for [mt]. *)
Definition kindFlag (env : Env) (mt : mutant.Type_) : flags.Flag :=
  (mutantTypeFlag mt env {| now := 0; cwd := EmptyString; tempDirs := ∅;
                            trace := []; logged := [] |}).1.

(** [cmd] with the registered flags replaced by [fls]. *)
Definition withFlags (cmd : Command) (fls : list flags.Flag) : Command :=
  {| Use := Use cmd; Aliases := Aliases cmd; MaxArgs := MaxArgs cmd;
     Short := Short cmd; RunE := RunE cmd; SortFlags := SortFlags cmd;
     NormalizeFunc := NormalizeFunc cmd; Flags := fls |}.

(** An answer of [flags.Set] that refuses the flag named [name]. *)
Definition refuseFlag (name : string) (f : flags.Flag) : option error :=
  if decide (flags.Name f = name) then Some (ErrExternal "flag redefined")
  else None.

Definition isRemoveAll (e : Event) : bool :=
  match e with EvRemoveAll _ => true | _ => false end.

Definition isExec (e : Event) : bool :=
  match e with EvExec _ => true | _ => false end.

(** The lines that [cleanUp] logs. *)
Definition cleanUpLog (env : Env) (wd rd : string) : list LogLine :=
  match env_chdirErr env rd with
  | Some e =>
      [mkLogLine Error "impossible to move back to original folder: %s\n\t%s"
         [LErr e; LStr wd]]
  | None => []
  end
  ++ match env_removeAllErr env wd with
     | Some e =>
         [mkLogLine Error "impossible to remove temporary folder: %s\n\t%s"
            [LErr e; LStr wd]]
     | None => []
     end.

(** [exampleEnv] with other answers for the creation of the work root, the
    module lookup, the parser of the report, the closing of the report and
    the registration of flags. *)
Definition exampleEnvFailing (mkdirErr : option error)
    (moduleInit : string → gomodule.GoModule + error)
    (parseProfiles : File → list cover.Profile + error)
    (closeErr : File → option error)
    (flagSetErr : flags.Flag → option error) : Env :=
  {| env_duration := env_duration exampleEnv;
     env_getwdErr := env_getwdErr exampleEnv;
     env_filepathAbs := env_filepathAbs exampleEnv;
     env_filepathRel := env_filepathRel exampleEnv;
     env_chdirErr := env_chdirErr exampleEnv;
     env_tempDir := env_tempDir exampleEnv;
     env_mkdirTempErr := mkdirErr;
     env_random := env_random exampleEnv;
     env_removeAllErr := env_removeAllErr exampleEnv;
     env_open := env_open exampleEnv;
     env_closeErr := closeErr;
     env_runErr := env_runErr exampleEnv;
     env_parseProfiles := parseProfiles;
     env_configString := env_configString exampleEnv;
     cfg_UnleashTagsKey := cfg_UnleashTagsKey exampleEnv;
     cfg_UnleashDryRunKey := cfg_UnleashDryRunKey exampleEnv;
     cfg_UnleashOutputKey := cfg_UnleashOutputKey exampleEnv;
     cfg_UnleashThresholdEfficacyKey := cfg_UnleashThresholdEfficacyKey exampleEnv;
     cfg_UnleashThresholdMCoverageKey := cfg_UnleashThresholdMCoverageKey exampleEnv;
     cfg_MutantTypeEnabledKey := cfg_MutantTypeEnabledKey exampleEnv;
     cfg_IsDefaultEnabled := cfg_IsDefaultEnabled exampleEnv;
     env_moduleInit := moduleInit;
     env_mutatorRun := env_mutatorRun exampleEnv;
     env_reportDo := env_reportDo exampleEnv;
     mutant_MutantTypes := mutant_MutantTypes exampleEnv;
     mutant_String := mutant_String exampleEnv;
     env_flagSetErr := flagSetErr |}.

(** * Properties *)

(** Unfolds the plumbing of [M] and computes. *)
Ltac monad_unfold :=
  unfold mbind, M_bind, mret, M_ret, ask, get, modify in *; cbn in *.

(** ** The monad *)

Lemma bind_eq {A B : Type} (m : M A) (f : A → M B) env st :
  (m ≫= f) env st = f (m env st).1 env (m env st).2.
Proof. unfold mbind, M_bind. by destruct (m env st). Qed.

(** ** Strings *)

Lemma prefix_empty (s : string) : String.prefix EmptyString s = true.
Proof. by destruct s. Qed.

Lemma replaceAll_byte (a b : ascii) (s : string) :
  strings_ReplaceAll s (String a EmptyString) (String b EmptyString)
  = mapString (λ c, if ascii_dec a c then b else c) s.
Proof.
  unfold strings_ReplaceAll.
  induction s as [|c s IH]; [done|].
  cbn [replaceAll_scan mapString String.prefix].
  destruct (ascii_dec a c) as [->|Hne].
  - rewrite prefix_empty. cbn. by rewrite IH.
  - by rewrite IH.
Qed.

Lemma mapString_compose (f g : ascii → ascii) (s : string) :
  mapString f (mapString g s) = mapString (λ c, f (g c)) s.
Proof. induction s as [|c s IH]; [done|]. cbn. by rewrite IH. Qed.

Lemma mapString_ext (f g : ascii → ascii) (s : string) :
  (∀ c, f c = g c) → mapString f s = mapString g s.
Proof. intros H. induction s as [|c s IH]; [done|]. cbn. by rewrite H, IH. Qed.

Lemma normalizeFunc_mapString (name : string) :
  normalizeFunc name = mapString dashSeparator name.
Proof.
  unfold normalizeFunc. cbn [fold_left].
  rewrite !replaceAll_byte, mapString_compose.
  apply mapString_ext. intros c. unfold dashSeparator.
  destruct (ascii_dec "." c) as [<-|H1]; [done|].
  destruct (ascii_dec c ".") as [->|_]; [done|].
  destruct (ascii_dec "_" c) as [<-|H2]; [done|].
  by destruct (ascii_dec c "_") as [->|_].
Qed.

Lemma dashSeparator_isSeparator (x y : ascii) :
  isSeparator x = true → isSeparator y = true →
  dashSeparator x = dashSeparator y.
Proof.
  unfold isSeparator, dashSeparator. intros Hx Hy.
  repeat (apply orb_prop in Hx as [Hx|Hx]);
    repeat (apply orb_prop in Hy as [Hy|Hy]);
    apply bool_decide_eq_true in Hx, Hy; by subst.
Qed.

Lemma mapString_sameUpToSeparators (a b : string) :
  sameUpToSeparators a b = true →
  mapString dashSeparator a = mapString dashSeparator b.
Proof.
  revert b. induction a as [|x a IH]; intros [|y b] H; try done.
  cbn in H. apply andb_prop in H as [Hxy Hab].
  cbn. f_equal; [|by apply IH].
  apply orb_prop in Hxy as [Hxy|Hxy].
  - apply bool_decide_eq_true in Hxy. by subst.
  - apply andb_prop in Hxy as [Hx Hy]. by apply dashSeparator_isSeparator.
Qed.

Lemma occursIn_dashSeparator (c : ascii) (s : string) :
  c = "."%char ∨ c = "_"%char → occursIn c (mapString dashSeparator s) = false.
Proof.
  intros Hc. induction s as [|x s IH]; [done|].
  cbn. rewrite IH, orb_false_r. apply bool_decide_eq_false.
  unfold dashSeparator.
  destruct (ascii_dec x ".") as [->|?]; [by destruct Hc as [->| ->]|].
  destruct (ascii_dec x "_") as [->|?]; [by destruct Hc as [->| ->]|].
  by destruct Hc as [->| ->].
Qed.

Lemma setFlags_NormalizeFunc (fls : list (M flags.Flag)) :
  ∀ (cmd : Command) env st,
    NormalizeFunc (setFlags cmd fls env st).1.1 = NormalizeFunc cmd.
Proof.
  induction fls as [|mf fls IH]; intros cmd env st; [done|].
  cbn [setFlags]. rewrite bind_eq. unfold flags_Set.
  rewrite !bind_eq. cbn [ask fst snd].
  destruct (env_flagSetErr env _) as [e|]; [done|].
  cbn [mret M_ret fst snd]. by rewrite IH.
Qed.

Lemma setFlagsOnCmd_NormalizeFunc (cmd : Command) env st :
  NormalizeFunc (setFlagsOnCmd cmd env st).1.1 = Some normalizeFunc.
Proof.
  unfold setFlagsOnCmd, setMutantTypeFlags. cbn zeta. rewrite bind_eq.
  match goal with
  | |- context [setFlags ?c unleashFlags env st] =>
      pose proof (setFlags_NormalizeFunc unleashFlags c env st) as H;
        destruct (setFlags c unleashFlags env st) as [[cmd1 [e|]] st1]
  end; cbn [fst snd NormalizeFunc] in *; [done|].
  rewrite bind_eq. cbn [ask fst snd]. by rewrite setFlags_NormalizeFunc.
Qed.

(** C7.  [setFlagsOnCmd] installs [normalizeFunc] as the name normalisation
    of the flags of the command.  It replaces every ['.'] and every ['_'] of
    a flag name by ['-'] and changes nothing else, so the normalised name
    holds neither byte, and two names that differ only by their separators
    are normalised to the same name. *)
Theorem normalizeFunc_separators env (cmd : Command) (st : State)
    (name other : string) :
  sameUpToSeparators name other = true →
  NormalizeFunc (setFlagsOnCmd cmd env st).1.1 = Some normalizeFunc
  ∧ normalizeFunc name = mapString dashSeparator name
  ∧ occursIn "."%char (normalizeFunc name) = false
  ∧ occursIn "_"%char (normalizeFunc name) = false
  ∧ normalizeFunc other = normalizeFunc name.
Proof.
  intros H. split; [apply setFlagsOnCmd_NormalizeFunc|].
  rewrite !normalizeFunc_mapString.
  repeat split.
  - apply occursIn_dashSeparator. by left.
  - apply occursIn_dashSeparator. by right.
  - symmetry. by apply mapString_sameUpToSeparators.
Qed.

Lemma normalizeFunc_separators_witness :
  sameUpToSeparators "threshold.m_cover" "threshold_m-cover" = true
  ∧ normalizeFunc "threshold.m_cover" = "threshold-m-cover"
  ∧ normalizeFunc "threshold_m-cover" = normalizeFunc "threshold.m_cover".
Proof.
  split; [reflexivity|].
  destruct (normalizeFunc_separators exampleEnv exampleCommand
              exampleState "threshold.m_cover" "threshold_m-cover")
    as (_ & _ & _ & _ & H4); [reflexivity|].
  split; [reflexivity | exact H4].
Defined.

(** ** Parsing the coverage report *)

Lemma removeModuleFromPath_eq (c : Coverage) (p : cover.Profile) env st :
  removeModuleFromPath c p env st = (profileKey env c p, st).
Proof.
  unfold removeModuleFromPath, profileKey, filepath_Rel. monad_unfold.
  by destruct (env_filepathRel env _ _).
Qed.

Lemma holds_default (f : string → list Block) (m : Profile) (fn : string) :
  holds f m → lookupBlocks m fn = f fn.
Proof. unfold lookupBlocks. intros H. rewrite (H fn). by destruct (f fn). Qed.

Lemma parse_blocks_holds (c : Coverage) (p : cover.Profile) env st
    (bs : list cover.ProfileBlock) :
  ∀ (f : string → list Block) (status : Profile),
    holds f status →
    ∃ status',
      parse_blocks c p bs status env st = (status', st)
      ∧ holds (λ fn, f fn ++ if decide (profileKey env c p = fn)
                             then executedBlocks bs else []) status'.
Proof.
  induction bs as [|b bs IH]; intros f status Hf.
  - exists status. split; [done|]. intros fn. rewrite (Hf fn).
    unfold executedBlocks. cbn. by destruct (decide _); rewrite app_nil_r.
  - cbn [parse_blocks]. destruct (decide (cover.Count b = 0)) as [Hz|Hnz].
    + destruct (IH f status Hf) as (status' & Hrun & Hst).
      exists status'. split; [done|]. intros fn. rewrite (Hst fn).
      unfold executedBlocks. rewrite filter_cons_False; [done|]. by intros ?.
    + set (key := profileKey env c p).
      set (status1 := <[key := default [] (status !! key) ++ [blockOf b]]> status).
      assert (Hf1 : holds (λ fn, f fn ++ if decide (key = fn)
                                          then [blockOf b] else []) status1).
      { intros fn. unfold status1. destruct (decide (key = fn)) as [<-|Hne].
        - rewrite lookup_insert_eq.
          change (default [] (status !! key)) with (lookupBlocks status key).
          rewrite (holds_default f status key Hf).
          by destruct (f key).
        - rewrite lookup_insert_ne by done. rewrite app_nil_r. apply Hf. }
      destruct (IH _ status1 Hf1) as (status' & Hrun & Hst).
      exists status'. split.
      * unfold mbind, M_bind. rewrite removeModuleFromPath_eq. exact Hrun.
      * intros fn. rewrite (Hst fn). fold key.
        unfold executedBlocks. rewrite filter_cons_True by done.
        destruct (decide (key = fn)); cbn; by rewrite <- ?app_assoc, ?app_nil_r.
Qed.

Lemma parse_profiles_holds (c : Coverage) env st (ps : list cover.Profile) :
  ∀ (f : string → list Block) (status : Profile),
    holds f status →
    ∃ status',
      parse_profiles c ps status env st = (status', st)
      ∧ holds (λ fn, f fn ++ blocksFor env c fn ps) status'.
Proof.
  induction ps as [|p ps IH]; intros f status Hf.
  - exists status. split; [done|]. intros fn. rewrite (Hf fn).
    unfold blocksFor. cbn. by rewrite app_nil_r.
  - cbn [parse_profiles].
    destruct (parse_blocks_holds c p env st (cover.Blocks p) f status Hf)
      as (status1 & Hrun1 & Hf1).
    destruct (IH _ status1 Hf1) as (status' & Hrun & Hst).
    exists status'. split.
    + unfold mbind, M_bind. rewrite Hrun1. exact Hrun.
    + intros fn. rewrite (Hst fn). unfold blocksFor. cbn.
      by rewrite <- app_assoc.
Qed.

Lemma elem_of_executedBlocks (blk : Block) (bs : list cover.ProfileBlock) :
  blk ∈ executedBlocks bs
  ↔ ∃ b, b ∈ bs ∧ cover.Count b ≠ 0 ∧ blk = blockOf b.
Proof.
  unfold executedBlocks. rewrite list_elem_of_fmap. split.
  - intros (b & -> & Hb). apply list_elem_of_filter in Hb as [Hc Hb]. eauto.
  - intros (b & Hb & Hc & ->). exists b. split; [done|].
    by apply list_elem_of_filter.
Qed.

Lemma elem_of_blocksFor env (c : Coverage) (fn : string) (blk : Block)
    (ps : list cover.Profile) :
  blk ∈ blocksFor env c fn ps
  ↔ ∃ p b, p ∈ ps ∧ b ∈ cover.Blocks p ∧ cover.Count b ≠ 0
           ∧ profileKey env c p = fn ∧ blk = blockOf b.
Proof.
  unfold blocksFor. rewrite list_elem_of_join. split.
  - intros (l & Hblk & Hl). apply list_elem_of_fmap in Hl as (p & -> & Hp).
    destruct (decide (profileKey env c p = fn)) as [Hk|Hk].
    + apply elem_of_executedBlocks in Hblk as (b & Hb & Hc & ->).
      exists p, b. eauto.
    + by apply elem_of_nil in Hblk.
  - intros (p & b & Hp & Hb & Hc & Hk & ->).
    exists (executedBlocks (cover.Blocks p)). split.
    + apply elem_of_executedBlocks. eauto.
    + apply list_elem_of_fmap. exists p. split; [|done].
      by rewrite decide_True.
Qed.

(** C2.  When the report is read into the entries [ps], [parse] returns a
    profile that holds, under each key, exactly the blocks of the entries
    filed under that key whose count is not zero, in report order (a key with
    no such block is absent); so a block is in the profile if and only if it
    comes from a block of the report with a nonzero count, and its start
    line, start column, end line and end column are those of the report. *)
Theorem parse_keeps_executed_blocks env (c : Coverage) (f : File)
    (ps : list cover.Profile) (st : State) :
  env_parseProfiles env f = inl ps →
  ∃ status st',
    parse c (Some f) env st = ((status, None), st')
    ∧ (∀ fn, status !! fn
             = match blocksFor env c fn ps with [] => None | l => Some l end)
    ∧ (∀ fn blk,
         blk ∈ lookupBlocks status fn
         ↔ ∃ p b, p ∈ ps ∧ b ∈ cover.Blocks p ∧ cover.Count b ≠ 0
                  ∧ profileKey env c p = fn
                  ∧ blk = {| StartLine := cover.StartLine b;
                             StartCol := cover.StartCol b;
                             EndLine := cover.EndLine b;
                             EndCol := cover.EndCol b |}).
Proof.
  intros Hps.
  set (st1 := (call (EvParseProfiles (Some f)) env st).2).
  destruct (parse_profiles_holds c env st1 ps (λ _, []) ∅) as (status & Hrun & Hst).
  { intros fn. apply lookup_empty. }
  exists status, st1. split; [|split].
  - unfold parse, cover_ParseProfilesFromReader. monad_unfold.
    rewrite Hps. cbn. by rewrite Hrun.
  - exact Hst.
  - intros fn blk. rewrite (holds_default _ _ fn Hst). cbn.
    apply elem_of_blocksFor.
Qed.

Lemma parse_keeps_executed_blocks_witness :
  env_parseProfiles exampleEnv (mkFile "/tmp/w/coverage" "mode: set") = inl exampleReport
  ∧ ∃ status st',
      parse (mkCoverage exec.Command "/tmp/w" "./..." "coverage" exampleModule "")
        (Some (mkFile "/tmp/w/coverage" "mode: set")) exampleEnv exampleState
      = ((status, None), st')
      ∧ status !! "a.go" = Some [mkBlock 3 1 5 2]
      ∧ status !! "sub/b.go" = Some [mkBlock 1 1 2 2]
      ∧ status !! "c.go" = None.
Proof.
  split; [reflexivity|].
  destruct (parse_keeps_executed_blocks exampleEnv
              (mkCoverage exec.Command "/tmp/w" "./..." "coverage" exampleModule "")
              (mkFile "/tmp/w/coverage" "mode: set") exampleReport exampleState)
    as (status & st' & Hrun & Hst & _); [reflexivity|].
  exists status, st'. split; [exact Hrun|].
  rewrite !Hst. repeat split; reflexivity.
Defined.

(** C3.  [removeModuleFromPath] deletes every occurrence of the module name
    followed by ['/'], not only the leading one: for the module [example] the
    entry [example/myexample/file.go] is handed to [filepath.Rel] as
    [myfile.go], where stripping the prefix gives [myexample/file.go]. *)
Theorem removeModuleFromPath_inner_occurrence :
  (∀ env st,
     (removeModuleFromPath nestedCoverage nestedEntry env st).1
     = (env_filepathRel env "." "myfile.go").1
     ∧ moduleRelativeKey env nestedCoverage nestedEntry
       = (env_filepathRel env "." "myexample/file.go").1)
  ∧ (removeModuleFromPath nestedCoverage nestedEntry exampleEnv exampleState).1
    = "myfile.go"
  ∧ moduleRelativeKey exampleEnv nestedCoverage nestedEntry = "myexample/file.go".
Proof.
  split; [|split; reflexivity].
  intros env st. rewrite removeModuleFromPath_eq. split; reflexivity.
Qed.

(** ** The coverage command *)

Lemma New_eq (workdir : string) (m : gomodule.GoModule) env st :
  New workdir m [] env st
  = ({| cmdContext := exec.Command; workDir := workdir; path := "./...";
        fileName := "coverage"; mod_ := m;
        buildTags := env_configString env (cfg_UnleashTagsKey env) |}, st).
Proof. reflexivity. Qed.

Lemma executeCoverage_trace (c : Coverage) env st :
  trace (executeCoverage c env st).2 = trace st ++ [EvExec (coverageCmd c)].
Proof.
  unfold executeCoverage, Cmd_Run, call, time_Now, time_Since. monad_unfold.
  fold (coverageCmd c). by destruct (env_runErr env (coverageCmd c)).
Qed.

Lemma string_app_length (a b : string) :
  String.length (a +:+ b) = (String.length a + String.length b)%nat.
Proof. induction a as [|x a IH]; [done|]. simpl. by f_equal. Qed.

(** C6.  The flag [tags] (shorthand [t], default empty) is bound to the
    configuration key from which the coverage built by [New] takes its build
    tags [v].  [executeCoverage] runs one command, [go] with the arguments
    [args]: for non-empty tags they are [test -tags v] followed by the
    coverage arguments, for empty tags they are [test] followed by the
    coverage arguments, and [-tags] is not among them. *)
Theorem executeCoverage_build_tags env (workdir : string) (m : gomodule.GoModule)
    (st st1 : State) :
  let v := env_configString env (cfg_UnleashTagsKey env) in
  let c := (New workdir m [] env st).1 in
  let coverArgs := ["-cover"; "-coverprofile"; workdir +:+ "/coverage"; "./..."] in
  ∃ args,
    (∃ mf, unleashFlags !! 1%nat = Some mf
           ∧ (mf env st).1
             = {| flags.Name := "tags"; flags.CfgKey := cfg_UnleashTagsKey env;
                  flags.Shorthand := "t"; flags.DefaultV := flags.VString "";
                  flags.Usage := "a comma-separated list of build tags" |})
    ∧ buildTags c = v
    ∧ trace (executeCoverage c env st1).2
      = trace st1 ++ [EvExec {| exec.Path := "go"; exec.Args := "go" :: args;
                                exec.Stdout := None;
                                exec.Stderr := Some exec.os_Stderr |}]
    ∧ (v ≠ EmptyString → args = ["test"; "-tags"; v] ++ coverArgs)
    ∧ (v = EmptyString → args = ["test"] ++ coverArgs ∧ "-tags" ∉ args).
Proof.
  intros v c coverArgs. exists (coverageArgs c).
  split; [eexists; split; reflexivity|]. split; [reflexivity|]. split; [|split].
  - rewrite executeCoverage_trace. reflexivity.
  - intros Hv. subst c. rewrite New_eq. unfold coverageArgs. cbn.
    fold v. rewrite decide_True by done. reflexivity.
  - intros Hv. subst c. rewrite New_eq. unfold coverageArgs. cbn.
    fold v. rewrite decide_False by (by intros ?). split; [reflexivity|].
    unfold filePath. cbn. intros Hin.
    repeat (apply elem_of_cons in Hin as [Hin|Hin]; [try done|]).
    + apply (f_equal String.length) in Hin.
      rewrite string_app_length in Hin.
      change (String.length ("/" +:+ "coverage")) with 9%nat in Hin.
      cbn in Hin. lia.
    + by apply elem_of_nil in Hin.
Qed.

Lemma executeCoverage_build_tags_witness :
  env_configString (exampleEnvWith "integration" (λ _, None) exampleOpen)
    "unleash.tags" ≠ EmptyString
  ∧ ∃ args,
      trace (executeCoverage
               (New "/tmp/gremlins-1234" exampleModule []
                  (exampleEnvWith "integration" (λ _, None) exampleOpen)
                  exampleState).1
               (exampleEnvWith "integration" (λ _, None) exampleOpen)
               exampleState).2
      = [EvExec {| exec.Path := "go"; exec.Args := "go" :: args;
                   exec.Stdout := None; exec.Stderr := Some exec.os_Stderr |}]
      ∧ args = ["test"; "-tags"; "integration"; "-cover"; "-coverprofile";
                "/tmp/gremlins-1234/coverage"; "./..."].
Proof.
  split; [by vm_compute|].
  destruct (executeCoverage_build_tags
              (exampleEnvWith "integration" (λ _, None) exampleOpen)
              "/tmp/gremlins-1234" exampleModule exampleState exampleState)
    as (args & _ & _ & Htrace & Htags & _).
  exists args. split; [exact Htrace|]. apply Htags. by vm_compute.
Defined.

(** ** Opening the coverage report *)

(** C10.  When the report cannot be opened, [getProfile] returns the [nil]
    profile and the error of [os.Open]; the deferred [Close] is called on the
    [nil] handle, where it returns [ErrInvalid], which is dropped; nothing is
    parsed: the two calls are all that [getProfile] did. *)
Theorem getProfile_open_error env (c : Coverage) (st : State) (e : error) :
  env_open env (filePath c) = inr e →
  ∃ st',
    getProfile c env st = ((nilProfile, Some e), st')
    ∧ trace st' = trace st ++ [EvOpen (filePath c); EvClose None]
    ∧ (File_Close None env (os_Open (filePath c) env st).2).1 = Some ErrInvalid.
Proof.
  intros Hopen. eexists. split; [|split].
  - unfold getProfile, os_Open, File_Close, call. monad_unfold.
    rewrite Hopen. cbn. reflexivity.
  - cbn. by rewrite <- app_assoc.
  - reflexivity.
Qed.

Lemma getProfile_open_error_witness :
  ∃ st',
    getProfile nestedCoverage
      (exampleEnvWith EmptyString (λ _, None) (λ _, inr (ErrExternal "no such file")))
      exampleState
    = ((nilProfile, Some (ErrExternal "no such file")), st')
    ∧ trace st' = [EvOpen "/tmp/gremlins-1234/coverage"; EvClose None].
Proof.
  destruct (getProfile_open_error
              (exampleEnvWith EmptyString (λ _, None)
                 (λ _, inr (ErrExternal "no such file")))
              nestedCoverage exampleState (ErrExternal "no such file"))
    as (st' & Hrun & Htrace & _); [reflexivity|].
  exists st'. split; [exact Hrun | exact Htrace].
Defined.

(** ** Frame lemmas *)

Lemma preserves_mret {A : Type} (P : Event → bool) (a : A) : preserves P (mret a).
Proof.
  intros env st. repeat split. exists []. by rewrite app_nil_r.
Qed.

Lemma preserves_ask {A : Type} (P : Event → bool) (f : Env → A) :
  preserves P (ask f).
Proof. intros env st. repeat split. exists []. by rewrite app_nil_r. Qed.

Lemma preserves_get {A : Type} (P : Event → bool) (f : State → A) :
  preserves P (get f).
Proof. intros env st. repeat split. exists []. by rewrite app_nil_r. Qed.

Lemma preserves_log (P : Event → bool) l format args :
  preserves P (log_write l format args).
Proof. intros env st. repeat split. exists []. by rewrite app_nil_r. Qed.

Lemma preserves_call (P : Event → bool) (e : Event) :
  P e = true → preserves P (call e).
Proof. intros He env st. repeat split. exists [e]. split; [done|]. by constructor. Qed.

Lemma preserves_bind {A B : Type} (P : Event → bool) (m : M A) (f : A → M B) :
  preserves P m → (∀ a, preserves P (f a)) → preserves P (m ≫= f).
Proof.
  intros Hm Hf env st. unfold mbind, M_bind.
  destruct (Hm env st) as (Hc & Ht & evs & Htr & Hall).
  destruct (m env st) as [a st1]. cbn in *.
  destruct (Hf a env st1) as (Hc' & Ht' & evs' & Htr' & Hall').
  split; [congruence|]. split; [congruence|].
  exists (evs ++ evs'). split.
  - by rewrite Htr', Htr, app_assoc.
  - by apply Forall_app.
Qed.

Lemma preserves_weaken {A : Type} (P Q : Event → bool) (m : M A) :
  (∀ e, P e = true → Q e = true) → preserves P m → preserves Q m.
Proof.
  intros HPQ Hm env st. destruct (Hm env st) as (Hc & Ht & evs & Htr & Hall).
  repeat split; [done..|]. exists evs. split; [done|].
  eapply Forall_impl; [exact Hall|]. auto.
Qed.

(** Decomposes a goal [preserves P m] along the structure of [m]. *)
Ltac preserves_step :=
  first
    [ apply preserves_mret
    | apply preserves_ask
    | apply preserves_get
    | apply preserves_log
    | apply preserves_call; reflexivity
    | apply preserves_bind; [|intros ?]
    | match goal with
      | |- preserves _ (match ?x with _ => _ end) => destruct x
      | |- preserves _ (let '(_, _) := ?x in _) => destruct x
      end ].

Ltac preserves_auto := repeat preserves_step.

Lemma parse_blocks_preserves (P : Event → bool) (c : Coverage) (p : cover.Profile)
    (bs : list cover.ProfileBlock) (status : Profile) :
  preserves P (parse_blocks c p bs status).
Proof.
  revert status. induction bs as [|b bs IH]; intros status; cbn [parse_blocks].
  - apply preserves_mret.
  - destruct (decide _); [apply IH|].
    apply preserves_bind; [|intros ?; apply IH].
    unfold removeModuleFromPath, filepath_Rel. preserves_auto.
Qed.

Lemma parse_profiles_preserves (P : Event → bool) (c : Coverage)
    (ps : list cover.Profile) (status : Profile) :
  preserves P (parse_profiles c ps status).
Proof.
  revert status. induction ps as [|p ps IH]; intros status; cbn [parse_profiles].
  - apply preserves_mret.
  - apply preserves_bind; [apply parse_blocks_preserves | intros ?; apply IH].
Qed.

Lemma Run_preserves (c : Coverage) : preserves isCoverageEvent (Run c).
Proof.
  unfold Run, downloadModules, executeCoverage, getProfile, parse, Cmd_Run,
    os_Open, File_Close, cover_ParseProfilesFromReader, time_Now, time_Since,
    log_Infof.
  preserves_auto; apply parse_profiles_preserves.
Qed.

Lemma run_preserves (ctx : Context) (workDir currPath : string) :
  preserves isPipelineEvent (run ctx workDir currPath).
Proof.
  unfold run, gomodule_Init, mutator_Run.
  apply preserves_bind; [preserves_auto|intros [m|e]]; [|preserves_auto].
  apply preserves_bind; [unfold New, NewWithCmd, configuration_Get_string;
                         preserves_auto|intros c].
  apply preserves_bind.
  - apply (preserves_weaken isCoverageEvent); [|apply Run_preserves].
    by intros [].
  - intros [p [e|]]; preserves_auto.
Qed.

(** ** The coverage phase *)

Lemma downloadModules_eq (c : Coverage) env st :
  downloadModules c env st
  = (env_runErr env (downloadCmd c), (call (EvExec (downloadCmd c)) env st).2).
Proof. reflexivity. Qed.

Lemma executeCoverage_eq (c : Coverage) env st :
  executeCoverage c env st
  = (match env_runErr env (coverageCmd c) with
     | Some e => (0, Some e)
     | None => (env_duration env (EvExec (coverageCmd c)), None)
     end, (call (EvExec (coverageCmd c)) env st).2).
Proof.
  unfold executeCoverage, Cmd_Run, time_Now, time_Since, call.
  unfold mbind, M_bind, mret, M_ret, ask, get. cbn [fst snd now].
  fold (coverageCmd c).
  destruct (env_runErr env (coverageCmd c)); [done|].
  cbn. do 2 f_equal. lia.
Qed.

Lemma getProfile_result (c : Coverage) env st :
  match env_open env (filePath c) with
  | inr e => (getProfile c env st).1 = (nilProfile, Some e)
  | inl f =>
      match env_parseProfiles env f with
      | inr e => (getProfile c env st).1 = (nilProfile, Some e)
      | inl ps =>
          ∃ profile, holds (λ fn, blocksFor env c fn ps) profile
                     ∧ (getProfile c env st).1 = (profile, None)
      end
  end.
Proof.
  unfold getProfile, os_Open, File_Close, parse, cover_ParseProfilesFromReader.
  unfold mbind, M_bind, mret, M_ret, ask. cbn [fst snd call].
  destruct (env_open env (filePath c)) as [f|e]; [|done].
  destruct (env_parseProfiles env f) as [ps|e]; [|done].
  match goal with
  | |- context [parse_profiles c ps ∅ env ?s] =>
      destruct (parse_profiles_holds c env s ps (λ _, []) ∅) as (profile & Hrun & Hst);
        [intros fn; apply lookup_empty|]
  end.
  exists profile. split; [exact Hst|]. by rewrite Hrun.
Qed.

Lemma Run_result (c : Coverage) env st :
  match firstFailure env c with
  | Some (step, e) =>
      (Run c env st).1 = (zeroResult, Some (Errorf (stepFormat step) [] e))
  | None =>
      ∃ f ps profile,
        env_open env (filePath c) = inl f
        ∧ env_parseProfiles env f = inl ps
        ∧ holds (λ fn, blocksFor env c fn ps) profile
        ∧ (Run c env st).1
          = ({| ResultProfile := profile;
                Elapsed := env_duration env (EvExec (coverageCmd c)) |}, None)
  end.
Proof.
  unfold firstFailure, Run.
  rewrite !bind_eq, downloadModules_eq. cbn [fst snd].
  destruct (env_runErr env (downloadCmd c)) as [e|]; [done|].
  rewrite bind_eq, executeCoverage_eq. cbn [fst snd].
  destruct (env_runErr env (coverageCmd c)) as [e|]; [done|].
  rewrite !bind_eq.
  match goal with
  | |- context [getProfile c env ?s] => pose proof (getProfile_result c env s) as Hg
  end.
  destruct (env_open env (filePath c)) as [f|e] eqn:Hopen.
  - destruct (env_parseProfiles env f) as [ps|e] eqn:Hparse.
    + destruct Hg as (profile & Hst & Hg). exists f, ps, profile.
      do 3 (split; [done|]). by rewrite Hg.
    + by rewrite Hg.
  - by rewrite Hg.
Qed.

Lemma countEvents_app (P : Event → bool) (tr evs : list Event) :
  countEvents P (tr ++ evs) = (countEvents P tr + countEvents P evs)%nat.
Proof. unfold countEvents. by rewrite List.filter_app, length_app. Qed.

Lemma countEvents_none (P Q : Event → bool) (evs : list Event) :
  (∀ e, Q e = true → P e = false) →
  Forall (λ e, Q e = true) evs → countEvents P evs = 0%nat.
Proof.
  intros HQP Hall. induction Hall as [|e evs He _ IH]; [done|].
  unfold countEvents in *. cbn. by rewrite (HQP e He).
Qed.

(** C9.  The [Elapsed] of a successful coverage phase is the time taken by
    the one call that runs the tests with coverage.  The time taken by the
    download of the modules, by opening, parsing and closing the report, and
    the time at which the phase starts have no part in it: whatever they
    are, [Elapsed] is the same. *)
Theorem Elapsed_is_test_duration env (c : Coverage) (st st' : State) (r : Result) :
  Run c env st = ((r, None), st') →
  Elapsed r = env_duration env (EvExec (coverageCmd c))
  ∧ ∀ (d : Event → Z) (st2 : State),
      d (EvExec (coverageCmd c)) = env_duration env (EvExec (coverageCmd c)) →
      ∃ r2, (Run c (withDuration d env) st2).1 = (r2, None)
            ∧ Elapsed r2 = Elapsed r.
Proof.
  intros Hrun.
  pose proof (Run_result c env st) as H1. rewrite Hrun in H1. cbn [fst] in H1.
  destruct (firstFailure env c) as [[step e]|] eqn:Hff; [done|].
  destruct H1 as (f & ps & profile & _ & _ & _ & H1).
  injection H1 as ->. split; [done|].
  intros d st2 Hd.
  pose proof (Run_result c (withDuration d env) st2) as H2.
  change (firstFailure (withDuration d env) c) with (firstFailure env c) in H2.
  rewrite Hff in H2. destruct H2 as (f2 & ps2 & profile2 & _ & _ & _ & H2).
  eexists. split; [exact H2|]. exact Hd.
Qed.

Lemma Elapsed_is_test_duration_witness :
  (Run exampleCoverage exampleEnv exampleState).1.2 = None
  ∧ Elapsed (Run exampleCoverage exampleEnv exampleState).1.1 = 2000
  ∧ now (Run exampleCoverage exampleEnv exampleState).2 = 2730.
Proof.
  split; [vm_compute; reflexivity|].
  split; [|vm_compute; reflexivity].
  exact (proj1 (Elapsed_is_test_duration exampleEnv exampleCoverage exampleState
                  (Run exampleCoverage exampleEnv exampleState).2
                  (Run exampleCoverage exampleEnv exampleState).1.1 eq_refl)).
Defined.

Lemma run_eq (ctx : Context) (workDir currPath : string) env st
    (m : gomodule.GoModule) :
  env_moduleInit env currPath = inl m →
  run ctx workDir currPath env st
  = let st0 := (call (EvModuleInit currPath) env st).2 in
    let c := (New workDir m [] env st).1 in
    let r := Run c env st0 in
    match r.1 with
    | (_, Some e) =>
        ((report.zero, Some (Errorf "failed to gather coverage: %w" [] e)), r.2)
    | (p, None) =>
        ((env_mutatorRun env ctx workDir m p, None),
         (call (EvMutatorRun ctx workDir m p) env r.2).2)
    end.
Proof.
  intros Hmod. unfold run, gomodule_Init, mutator_Run.
  rewrite !bind_eq. cbn [fst snd ask call]. rewrite Hmod.
  rewrite !bind_eq. cbn [fst snd New NewWithCmd configuration_Get_string ask
                           mbind M_bind mret M_ret fold_left].
  destruct (Run _ env _) as [[p [e|]] s1]; reflexivity.
Qed.

(** C5.  For the coverage that [run] builds for a module: when a step of
    the coverage phase fails (the download of the dependencies, the run of
    the instrumented tests, opening or parsing the report), [Run] returns the
    error of that step, wrapped, and [run] returns that error, wrapped again,
    with empty results and without a call of the mutator; when no step
    fails, [Run] returns no error and a result with the profile parsed from
    the report and the time the tests took. *)
Theorem coverage_failure_aborts_run env (ctx : Context) (workDir currPath : string)
    (m : gomodule.GoModule) (st : State) :
  env_moduleInit env currPath = inl m →
  let c := (New workDir m [] env st).1 in
  match firstFailure env c with
  | Some (step, e) =>
      (∀ st1, (Run c env st1).1
              = (zeroResult, Some (Errorf (stepFormat step) [] e)))
      ∧ (run ctx workDir currPath env st).1
        = (report.zero,
           Some (Errorf "failed to gather coverage: %w" []
                   (Errorf (stepFormat step) [] e)))
      ∧ countEvents isMutatorRun (trace (run ctx workDir currPath env st).2)
        = countEvents isMutatorRun (trace st)
  | None =>
      ∀ st1, ∃ f ps profile,
        env_open env (filePath c) = inl f
        ∧ env_parseProfiles env f = inl ps
        ∧ holds (λ fn, blocksFor env c fn ps) profile
        ∧ (Run c env st1).1
          = ({| ResultProfile := profile;
                Elapsed := env_duration env (EvExec (coverageCmd c)) |}, None)
  end.
Proof.
  intros Hmod c.
  destruct (firstFailure env c) as [[step e]|] eqn:Hff.
  - assert (HRun : ∀ st1, (Run c env st1).1
                          = (zeroResult, Some (Errorf (stepFormat step) [] e))).
    { intros st1. pose proof (Run_result c env st1) as H. by rewrite Hff in H. }
    split; [exact HRun|].
    rewrite (run_eq ctx workDir currPath env st m Hmod). cbn zeta. fold c.
    set (st0 := (call (EvModuleInit currPath) env st).2).
    pose proof (HRun st0) as Hr.
    destruct (Run_preserves c env st0) as (_ & _ & evs & Htr & Hall).
    destruct (Run c env st0) as [[p err] s1]. cbn [fst snd] in *.
    injection Hr as -> ->. split; [done|].
    cbn [fst snd]. rewrite Htr. cbn [trace st0 call snd]. rewrite !countEvents_app.
    rewrite (countEvents_none isMutatorRun isCoverageEvent evs); [|by intros []|done].
    cbn. lia.
  - intros st1. pose proof (Run_result c env st1) as H. by rewrite Hff in H.
Qed.

Lemma coverage_failure_aborts_run_witness :
  (run ctxLive "/tmp/gremlins-1234" "/src/m"
     (exampleEnvWith EmptyString (λ _, None) (λ _, inr (ErrExternal "no such file")))
     exampleState).1
  = (report.zero,
     Some (Errorf "failed to gather coverage: %w" []
             (Errorf "an error occurred while generating coverage profile: %w" []
                (ErrExternal "no such file"))))
  ∧ countEvents isMutatorRun
      (trace (run ctxLive "/tmp/gremlins-1234" "/src/m"
                (exampleEnvWith EmptyString (λ _, None)
                   (λ _, inr (ErrExternal "no such file")))
                exampleState).2) = 0%nat.
Proof.
  pose proof (coverage_failure_aborts_run
                (exampleEnvWith EmptyString (λ _, None)
                   (λ _, inr (ErrExternal "no such file")))
                ctxLive "/tmp/gremlins-1234" "/src/m" exampleModule exampleState
                eq_refl) as H.
  cbn zeta in H.
  change (firstFailure _ _) with (Some (OpenReport, ErrExternal "no such file")) in H.
  destruct H as (_ & Hrun & Hcount). split; [exact Hrun | exact Hcount].
Defined.

(** ** The flags of the mutant kinds *)

Lemma toLowerByte_underscore (c : ascii) :
  toLowerByte (if ascii_dec "_" c then "-"%char else c)
  = if ascii_dec "_" (toLowerByte c) then "-"%char else toLowerByte c.
Proof. by destruct c as [[] [] [] [] [] [] [] []]. Qed.

Lemma ToLower_ReplaceAll_underscore (s : string) :
  strings_ToLower (strings_ReplaceAll s "_" "-")
  = strings_ReplaceAll (strings_ToLower s) "_" "-".
Proof.
  unfold strings_ToLower. rewrite !replaceAll_byte, !mapString_compose.
  apply mapString_ext, toLowerByte_underscore.
Qed.

Lemma mutantTypeFlag_isKindFlag (mt : mutant.Type_) env st :
  (mutantTypeFlag mt env st).2 = st
  ∧ isKindFlag env mt (mutantTypeFlag mt env st).1.
Proof.
  split; [reflexivity|]. repeat split. cbn.
  apply ToLower_ReplaceAll_underscore.
Qed.

Lemma setFlags_kinds (mts : list mutant.Type_) :
  ∀ (cmd cmd' : Command) env st st',
    setFlags cmd (mutantTypeFlag <$> mts) env st = ((cmd', None), st') →
    ∃ fs, Flags cmd' = Flags cmd ++ fs ∧ Forall2 (isKindFlag env) mts fs.
Proof.
  induction mts as [|mt mts IH]; intros cmd cmd' env st st' Hrun.
  - cbn in Hrun. injection Hrun as <- _. exists []. split; [|constructor].
    by rewrite app_nil_r.
  - cbn [fmap list_fmap setFlags] in Hrun. rewrite bind_eq in Hrun.
    destruct (mutantTypeFlag_isKindFlag mt env st) as [Hst Hflag].
    set (f := (mutantTypeFlag mt env st).1) in *. rewrite Hst in Hrun.
    rewrite bind_eq in Hrun. unfold flags_Set in Hrun at 1 2.
    rewrite !bind_eq in Hrun. cbn [ask fst snd] in Hrun.
    destruct (env_flagSetErr env f) as [e|]; [discriminate Hrun|].
    cbn [mret M_ret fst snd] in Hrun.
    apply IH in Hrun as (fs & Hfs & Hall). cbn [Flags] in Hfs.
    exists (f :: fs). split; [|by constructor].
    by rewrite Hfs, <- app_assoc.
Qed.

(** C8.  When [setMutantTypeFlags] returns without error, it has registered
    on the command, after the flags already there, one flag per mutant kind
    of the catalog, in catalog order: a boolean flag named by the identifier
    of the kind, lowercased and with ['_'] replaced by ['-'], whose default
    is [IsDefaultEnabled] of the kind. *)
Theorem setMutantTypeFlags_registers_kinds env (cmd cmd' : Command) (st st' : State) :
  setMutantTypeFlags cmd env st = ((cmd', None), st') →
  ∃ fs, Flags cmd' = Flags cmd ++ fs
        ∧ Forall2 (isKindFlag env) (mutant_MutantTypes env) fs.
Proof.
  unfold setMutantTypeFlags. rewrite bind_eq. cbn [ask fst snd].
  apply setFlags_kinds.
Qed.

Lemma setMutantTypeFlags_registers_kinds_witness :
  (setMutantTypeFlags exampleCommand exampleEnv exampleState).1.2 = None
  ∧ flags.Name <$> Flags (setMutantTypeFlags exampleCommand exampleEnv exampleState).1.1
    = ["conditionals-boundary"; "conditionals-negation"; "increment-decrement";
       "invert-negatives"; "arithmetic-base"]
  ∧ flags.DefaultV <$> Flags (setMutantTypeFlags exampleCommand exampleEnv exampleState).1.1
    = [flags.VBool true; flags.VBool true; flags.VBool true;
       flags.VBool false; flags.VBool true]
  ∧ ∃ fs,
      Flags (setMutantTypeFlags exampleCommand exampleEnv exampleState).1.1
      = Flags exampleCommand ++ fs
      ∧ Forall2 (isKindFlag exampleEnv) (mutant_MutantTypes exampleEnv) fs.
Proof.
  split; [vm_compute; reflexivity|].
  split; [vm_compute; reflexivity|].
  split; [vm_compute; reflexivity|].
  exact (setMutantTypeFlags_registers_kinds exampleEnv exampleCommand
           (setMutantTypeFlags exampleCommand exampleEnv exampleState).1.1
           exampleState
           (setMutantTypeFlags exampleCommand exampleEnv exampleState).2
           eq_refl).
Defined.

(** ** The unleash command *)

Lemma changePath_spec (args : list string) env st :
  let r := changePath args os_Chdir os_Getwd env st in
  r.1 = match changePathErr env args st with
        | Some e => (EmptyString, EmptyString, Some e)
        | None => (currPathOf env args st, cwd st, None)
        end
  ∧ tempDirs r.2 = tempDirs st
  ∧ cwd r.2 = match changePathErr env args st with
              | Some _ => cwd st
              | None =>
                  if decide (currPathOf env args st ≠ ".")
                  then currPathOf env args st else cwd st
              end
  ∧ ∃ evs, trace r.2 = trace st ++ evs
           ∧ Forall (λ e, isSetupEvent e = true) evs.
Proof.
  cbn zeta. unfold changePathErr.
  assert (Hcp : ∃ aerr, match args with
                        | [] => (cwd st, None)
                        | a0 :: _ => env_filepathAbs env (cwd st) a0
                        end = (currPathOf env args st, aerr)).
  { unfold currPathOf. destruct args as [|a0 args]; [by eexists|].
    destruct (env_filepathAbs env (cwd st) a0). by eexists. }
  destruct Hcp as [aerr Hcp].
  set (cp := currPathOf env args st) in *. clearbody cp.
  unfold changePath, os_Getwd, os_Chdir, filepath_Abs, setCwd, call.
  monad_unfold.
  destruct (env_getwdErr env) as [e|] eqn:Hwd.
  { cbn. repeat split. exists [EvGetwd]. split; [done|]. by repeat constructor. }
  cbn. rewrite Hwd. cbn.
  destruct args as [|a0 args]; cbn; rewrite ?Hcp; simplify_eq; cbn;
    match goal with
    | |- context [decide (?x ≠ ".")] =>
        destruct (decide (x ≠ ".")) as [Hne|Heq]; cbn;
        [destruct (env_chdirErr env x) as [e|] eqn:Hcd; cbn; rewrite ?Hcd; cbn|]
    end; rewrite ?decide_True, ?decide_False by done;
    (repeat split; eexists; rewrite <- !app_assoc;
     split; [reflexivity|by repeat constructor]).
Qed.

Lemma cleanUp_spec (wd rd : string) env st :
  let st' := (cleanUp wd rd env st).2 in
  trace st' = trace st ++ [EvChdir rd; EvRemoveAll wd]
  ∧ cwd st' = match env_chdirErr env rd with Some _ => cwd st | None => rd end
  ∧ tempDirs st' = match env_removeAllErr env wd with
                   | Some _ => tempDirs st
                   | None => tempDirs st ∖ {[wd]}
                   end.
Proof.
  unfold cleanUp, os_Chdir, os_RemoveAll, setCwd, setTempDirs, log_Errorf,
    log_write, call.
  monad_unfold.
  destruct (env_chdirErr env rd) as [e1|] eqn:H1; cbn; rewrite ?H1; cbn;
    destruct (env_removeAllErr env wd) as [e2|] eqn:H2; cbn; rewrite ?H2; cbn;
    by rewrite <- app_assoc.
Qed.

Lemma run_err (ctx : Context) (workDir currPath : string) env st :
  (run ctx workDir currPath env st).1.2 = runError env workDir currPath.
Proof.
  unfold runError. destruct (env_moduleInit env currPath) as [m|e] eqn:Hmod.
  - rewrite (run_eq ctx workDir currPath env st m Hmod). cbn zeta.
    change (New workDir m [] env st).1 with (coverageOf env workDir m).
    set (c := coverageOf env workDir m).
    set (st0 := (call (EvModuleInit currPath) env st).2).
    pose proof (Run_result c env st0) as Hr.
    destruct (firstFailure env c) as [[step e]|].
    + by rewrite Hr.
    + destruct Hr as (f & ps & profile & _ & _ & _ & Hr). by rewrite Hr.
  - unfold run, gomodule_Init. rewrite !bind_eq. cbn [call ask fst snd].
    by rewrite Hmod.
Qed.

Lemma runUnleash_body_preserves (ctx : Context) (workDir currPath : string) :
  preserves isBodyEvent (runUnleash_body ctx workDir currPath).
Proof.
  assert (Hrun : ∀ c, preserves isBodyEvent (run c workDir currPath)).
  { intros c. apply (preserves_weaken isPipelineEvent); [|apply run_preserves].
    intros e He. unfold isBodyEvent. by rewrite He. }
  unfold runUnleash_body, runWithCancel, report_Do, log_Infof.
  apply preserves_bind.
  - apply preserves_bind.
    + apply preserves_bind; [apply Hrun|]. intros [res err]. preserves_auto.
    + intros l. preserves_auto.
  - intros l. preserves_auto.
Qed.

Lemma runUnleash_body_cancelled (workDir currPath : string) env st :
  let r := runUnleash_body (ctxDone true) workDir currPath env st in
  r.1 = runError env workDir currPath
  ∧ ∃ evs, trace r.2 = trace st ++ evs
           ∧ Forall (λ e, isPipelineEvent e = true) evs.
Proof.
  cbn zeta. pose proof (run_err (ctxDone true) workDir currPath env st) as Herr.
  destruct (run_preserves (ctxDone true) workDir currPath env st)
    as (_ & _ & evs & Htr & Hall).
  unfold runUnleash_body, runWithCancel, log_Infof.
  rewrite !bind_eq.
  destruct (run (ctxDone true) workDir currPath env st) as [[res err] s1].
  cbn [fst snd] in *. subst err.
  cbn [mret M_ret log_write modify fst snd err_ cancelled trace].
  destruct (runError env workDir currPath); (split; [done|by exists evs]).
Qed.

Lemma runUnleash_started (ctx : Context) (args : list string) env st :
  changePathErr env args st = None →
  env_mkdirTempErr env = None →
  ∃ st1,
    tempDirs st1 = tempDirs st ∪ {[workRoot env]}
    ∧ (∃ evs1, trace st1 = trace st ++ evs1
                             ++ [EvMkdirTemp (env_tempDir env) "gremlins-"]
               ∧ Forall (λ e, isSetupEvent e = true) evs1)
    ∧ runUnleash ctx args env st
      = ((runUnleash_body ctx (workRoot env) (currPathOf env args st) env st1).1,
         (cleanUp (workRoot env) (cwd st) env
            (runUnleash_body ctx (workRoot env) (currPathOf env args st)
               env st1).2).2).
Proof.
  intros Hcp Hmk. unfold runUnleash, log_Infoln.
  rewrite bind_eq. cbn [log_write modify fst snd]. rewrite bind_eq.
  match goal with
  | |- context [changePath args os_Chdir os_Getwd env ?s] =>
      set (st0 := s);
      destruct (changePath_spec args env st0)
        as (Hres & Htmp & _ & evs1 & Htr & Hno)
  end.
  change (changePathErr env args st0) with (changePathErr env args st) in Hres.
  change (currPathOf env args st0) with (currPathOf env args st) in Hres.
  rewrite Hcp in Hres. cbn [cwd st0] in Hres.
  destruct (changePath args os_Chdir os_Getwd env st0) as [[[cp rd] err] s1].
  cbn [fst snd] in *. simplify_eq.
  unfold os_TempDir, os_MkdirTemp, setTempDirs. rewrite !bind_eq.
  cbn [ask call fst snd]. rewrite Hmk. rewrite !bind_eq.
  cbn [ask call modify mret M_ret fst snd tempDirs trace].
  rewrite !bind_eq. cbn [mret M_ret].
  match goal with
  | |- context [runUnleash_body ctx ?w ?c env ?s] => exists s
  end.
  split; [|split; [|reflexivity]].
  - cbn [tempDirs]. by rewrite Htmp.
  - exists evs1. cbn [trace]. rewrite Htr. split; [|done].
    by rewrite <- app_assoc.
Qed.

Lemma runUnleash_changePath_error (ctx : Context) (args : list string) env st
    (e : error) :
  changePathErr env args st = Some e →
  let r := runUnleash ctx args env st in
  r.1 = Some e
  ∧ tempDirs r.2 = tempDirs st
  ∧ cwd r.2 = cwd st
  ∧ ∃ evs, trace r.2 = trace st ++ evs
           ∧ Forall (λ e, isSetupEvent e = true) evs.
Proof.
  intros Hcp. cbn zeta. unfold runUnleash, log_Infoln.
  rewrite bind_eq. cbn [log_write modify fst snd]. rewrite bind_eq.
  match goal with
  | |- context [changePath args os_Chdir os_Getwd env ?s] =>
      set (st0 := s);
      destruct (changePath_spec args env st0)
        as (Hres & Htmp & Hcwd & evs1 & Htr & Hall)
  end.
  change (changePathErr env args st0) with (changePathErr env args st) in Hres, Hcwd.
  rewrite Hcp in Hres, Hcwd.
  destruct (changePath args os_Chdir os_Getwd env st0) as [[[cp rd] err] s1].
  cbn [fst snd] in *. simplify_eq. cbn [mret M_ret fst snd].
  repeat split; [done..|]. by exists evs1.
Qed.

Lemma runUnleash_mkdir_error (ctx : Context) (args : list string) env st
    (e : error) :
  changePathErr env args st = None →
  env_mkdirTempErr env = Some e →
  let r := runUnleash ctx args env st in
  r.1 = Some (Errorf "impossible to create the workdir: %w" [] e)
  ∧ tempDirs r.2 = tempDirs st
  ∧ cwd r.2 = (if decide (currPathOf env args st ≠ ".")
               then currPathOf env args st else cwd st).
Proof.
  intros Hcp Hmk. cbn zeta. unfold runUnleash, log_Infoln.
  rewrite bind_eq. cbn [log_write modify fst snd]. rewrite bind_eq.
  match goal with
  | |- context [changePath args os_Chdir os_Getwd env ?s] =>
      set (st0 := s);
      destruct (changePath_spec args env st0)
        as (Hres & Htmp & Hcwd & _)
  end.
  change (changePathErr env args st0) with (changePathErr env args st) in Hres, Hcwd.
  change (currPathOf env args st0) with (currPathOf env args st) in Hres, Hcwd.
  rewrite Hcp in Hres, Hcwd. cbn [cwd st0] in Hres, Hcwd.
  destruct (changePath args os_Chdir os_Getwd env st0) as [[[cp rd] err] s1].
  cbn [fst snd] in *. simplify_eq.
  unfold os_TempDir, os_MkdirTemp. rewrite !bind_eq.
  cbn [ask call fst snd]. rewrite Hmk. cbn [mret M_ret fst snd tempDirs cwd].
  by rewrite Htmp, Hcwd.
Qed.

Lemma countEvents_setup (P : Event → bool) (evs : list Event) :
  P EvGetwd = false → (∀ d, P (EvChdir d) = false) →
  Forall (λ e, isSetupEvent e = true) evs → countEvents P evs = 0%nat.
Proof. intros H1 H2. apply countEvents_none. by intros []. Qed.

Lemma countEvents_body (evs : list Event) :
  Forall (λ e, isBodyEvent e = true) evs → countEvents isMkdirTemp evs = 0%nat.
Proof. apply countEvents_none. by intros []. Qed.

Lemma countEvents_pipeline (evs : list Event) :
  Forall (λ e, isPipelineEvent e = true) evs → countEvents isReportDo evs = 0%nat.
Proof. apply countEvents_none. by intros []. Qed.

(** C4, as the code has it.  When [changePath] fails, the command returns
    its error and makes no call of [os.MkdirTemp]: no work root is created.
    When the initial change of directory and the creation of the work root
    succeed, the run makes exactly one call of [os.MkdirTemp], for the OS
    temporary directory and the prefix [gremlins-], and whatever happens
    after that (an error of the pipeline, a cancellation, a normal end) its
    last two calls are [os.Chdir] to the directory of the run start and
    [os.RemoveAll] of the work root; when these succeed, the working
    directory is that of the run start and the work root is gone. *)
Theorem unleash_work_root env (ctx : Context) (args : list string) (st : State) :
  let st' := (runUnleash ctx args env st).2 in
  (∀ e, changePathErr env args st = Some e →
        (runUnleash ctx args env st).1 = Some e
        ∧ tempDirs st' = tempDirs st
        ∧ countEvents isMkdirTemp (trace st') = countEvents isMkdirTemp (trace st))
  ∧ (changePathErr env args st = None →
     env_mkdirTempErr env = None →
     (∃ evs1 evs2,
        trace st' = trace st ++ evs1
                      ++ [EvMkdirTemp (env_tempDir env) "gremlins-"] ++ evs2
                      ++ [EvChdir (cwd st); EvRemoveAll (workRoot env)]
        ∧ countEvents isMkdirTemp evs1 = 0%nat
        ∧ countEvents isMkdirTemp evs2 = 0%nat)
     ∧ workRoot env = joinPath (env_tempDir env) ("gremlins-" +:+ env_random env)
     ∧ (env_chdirErr env (cwd st) = None → cwd st' = cwd st)
     ∧ (env_removeAllErr env (workRoot env) = None → workRoot env ∉ tempDirs st')).
Proof.
  intros st'. split.
  { intros e Hcp.
    destruct (runUnleash_changePath_error ctx args env st e Hcp)
      as (Hres & Htmp & _ & evs & Htr & Hall).
    subst st'. split; [done|split; [done|]].
    rewrite Htr, countEvents_app, (countEvents_setup isMkdirTemp evs) by done.
    lia. }
  intros Hcp Hmk.
  destruct (runUnleash_started ctx args env st Hcp Hmk)
    as (st1 & Htmp1 & (evs1 & Htr1 & Hno1) & Hrun).
  subst st'. rewrite Hrun. cbn [snd].
  set (wd := workRoot env) in *. set (cp := currPathOf env args st) in *.
  destruct (runUnleash_body_preserves ctx wd cp env st1)
    as (_ & Htmp2 & evs2 & Htr2 & Hall2).
  destruct (cleanUp_spec wd (cwd st) env (runUnleash_body ctx wd cp env st1).2)
    as (Htr3 & Hcwd3 & Htmp3).
  split; [|split; [reflexivity|split]].
  - exists evs1, evs2.
    split; [|split; [by apply countEvents_setup|by apply countEvents_body]].
    rewrite Htr3, Htr2, Htr1. by rewrite <- !app_assoc.
  - intros Hcd. rewrite Hcwd3. by rewrite Hcd.
  - intros Hrm. rewrite Htmp3, Hrm, Htmp2, Htmp1.
    apply not_elem_of_difference. right. by apply elem_of_singleton.
Qed.

Lemma unleash_work_root_witness :
  ∃ evs1 evs2,
    trace (runUnleash ctxLive [] exampleEnv exampleState).2
    = evs1 ++ [EvMkdirTemp "/tmp" "gremlins-"] ++ evs2
        ++ [EvChdir "/home/dev"; EvRemoveAll "/tmp/gremlins-1234"]
    ∧ countEvents isMkdirTemp evs1 = 0%nat
    ∧ countEvents isMkdirTemp evs2 = 0%nat.
Proof.
  exact (proj1 (proj2 (unleash_work_root exampleEnv ctxLive [] exampleState)
                  eq_refl eq_refl)).
Defined.

(** The claim C4 fails when the command cannot move to the directory given
    on the command line: it returns the error of [os.Chdir], and no work root
    has been created. *)
Lemma unleash_no_work_root_on_chdir_error :
  (runUnleash ctxLive ["/nonexistent"]
     (exampleEnvWith EmptyString (λ _, Some (ErrExternal "no such file or directory"))
        exampleOpen)
     exampleState).1
  = Some (ErrExternal "no such file or directory")
  ∧ countEvents isMkdirTemp
      (trace (runUnleash ctxLive ["/nonexistent"]
                (exampleEnvWith EmptyString
                   (λ _, Some (ErrExternal "no such file or directory"))
                   exampleOpen)
                exampleState).2) = 0%nat.
Proof. split; vm_compute; reflexivity. Qed.

(** C1, as the code has it.  In a run whose setup succeeds and in which the
    goroutine that waits for the cancellation has set [cancelled] before the
    command reads it, the command returns the error of the pipeline, which
    is [nil] when the pipeline had none, and [report.Do] is not called. *)
Theorem cancelled_run_outcome env (args : list string) (st : State) :
  changePathErr env args st = None →
  env_mkdirTempErr env = None →
  let r := runUnleash (ctxDone true) args env st in
  r.1 = runError env (workRoot env) (currPathOf env args st)
  ∧ (runError env (workRoot env) (currPathOf env args st) = None → r.1 = None)
  ∧ countEvents isReportDo (trace r.2) = countEvents isReportDo (trace st).
Proof.
  intros Hcp Hmk r.
  destruct (runUnleash_started (ctxDone true) args env st Hcp Hmk)
    as (st1 & _ & (evs1 & Htr1 & Hall1) & Hrun).
  subst r. rewrite Hrun. cbn [fst snd].
  set (wd := workRoot env) in *. set (cp := currPathOf env args st) in *.
  destruct (runUnleash_body_cancelled wd cp env st1) as (Hres & evs2 & Htr2 & Hall2).
  destruct (cleanUp_spec wd (cwd st) env
              (runUnleash_body (ctxDone true) wd cp env st1).2) as (Htr3 & _ & _).
  split; [exact Hres|split; [by intros <-|]].
  rewrite Htr3, Htr2, Htr1, !countEvents_app.
  rewrite (countEvents_pipeline evs2 Hall2).
  rewrite (countEvents_setup isReportDo evs1) by done.
  cbn. lia.
Qed.

Lemma cancelled_run_outcome_witness :
  (runUnleash (ctxDone true) [] exampleEnv exampleState).1 = None
  ∧ countEvents isReportDo
      (trace (runUnleash (ctxDone true) [] exampleEnv exampleState).2) = 0%nat.
Proof.
  destruct (cancelled_run_outcome exampleEnv [] exampleState eq_refl eq_refl)
    as (_ & Hnil & Hreport).
  split; [apply Hnil; reflexivity | exact Hreport].
Defined.

(** The claim C1 fails on a run that is cancelled while it gathers no error:
    the command returns [nil], which is what a run that was not cancelled and
    whose report succeeded returns, and it has not called [report.Do]. *)
Lemma cancelled_run_looks_like_success :
  (runUnleash (ctxDone true) [] exampleEnv exampleState).1 = None
  ∧ (runUnleash ctxLive [] exampleEnv exampleState).1 = None
  ∧ countEvents isReportDo
      (trace (runUnleash (ctxDone true) [] exampleEnv exampleState).2) = 0%nat
  ∧ countEvents isReportDo
      (trace (runUnleash ctxLive [] exampleEnv exampleState).2) = 1%nat.
Proof. repeat split; vm_compute; reflexivity. Qed.

(** * Further properties *)

(** Evaluates sequenced calls whose answers are known. *)
Ltac eval_m :=
  repeat (progress (rewrite ?bind_eq;
                    cbn [call ask get modify mret M_ret fst snd]));
  cbn [now cwd tempDirs trace logged].

Ltac close_trace := eval_m; cbn; rewrite <- ?app_assoc; reflexivity.

(** ** The calls of the coverage phase *)

Lemma parse_profiles_state (c : Coverage) (ps : list cover.Profile) env st :
  (parse_profiles c ps ∅ env st).2 = st.
Proof.
  destruct (parse_profiles_holds c env st ps (λ _, []) ∅) as (m & H & _).
  - intros fn. apply lookup_empty.
  - by rewrite H.
Qed.

Lemma getProfile_trace (c : Coverage) env st :
  trace (getProfile c env st).2
  = trace st ++ EvOpen (filePath c)
      :: match env_open env (filePath c) with
         | inl f => [EvParseProfiles (Some f); EvClose (Some f)]
         | inr _ => [EvClose None]
         end.
Proof.
  unfold getProfile, os_Open, File_Close, parse, cover_ParseProfilesFromReader.
  eval_m.
  destruct (env_open env (filePath c)) as [f|e]; [|close_trace].
  eval_m.
  destruct (env_parseProfiles env f) as [ps|e]; [|close_trace].
  eval_m. rewrite parse_profiles_state. close_trace.
Qed.

Lemma Run_trace (c : Coverage) env st :
  trace (Run c env st).2 = trace st ++ coverageCalls env c.
Proof.
  unfold Run, coverageCalls, log_Infof, log_write.
  rewrite !bind_eq, downloadModules_eq. cbn [modify fst snd].
  destruct (env_runErr env (downloadCmd c)) as [e|]; [close_trace|].
  rewrite bind_eq, executeCoverage_eq. cbn [fst snd].
  destruct (env_runErr env (coverageCmd c)) as [e|]; [close_trace|].
  rewrite !bind_eq. cbn [modify fst snd].
  match goal with
  | |- context [getProfile c env ?s] =>
      pose proof (getProfile_trace c env s) as Ht;
        destruct (getProfile c env s) as [[profile [e|]] s1]
  end; cbn [fst snd mret M_ret] in *; rewrite Ht; cbn;
    by rewrite <- !app_assoc.
Qed.

(** X1.  [Run] makes its calls in a fixed order and stops at the first step
    that fails: the tests are not run when the download of the modules
    fails, the report is not opened when the tests fail, it is parsed only
    when it could be opened, and an opened report is closed, also when
    parsing fails.  [Run] leaves the working directory and the temporary
    directories alone. *)
Theorem Run_calls_in_order env (c : Coverage) (st : State) :
  trace (Run c env st).2 = trace st ++ coverageCalls env c
  ∧ cwd (Run c env st).2 = cwd st
  ∧ tempDirs (Run c env st).2 = tempDirs st.
Proof.
  split; [apply Run_trace|].
  destruct (Run_preserves c env st) as (Hc & Ht & _). by split.
Qed.

(** X2.  When the report opens but cannot be parsed, [getProfile] returns
    the [nil] profile with the error of the parser, and it has closed the
    file it opened. *)
Theorem getProfile_parse_error env (c : Coverage) (st : State) (f : File)
    (e : error) :
  env_open env (filePath c) = inl f →
  env_parseProfiles env f = inr e →
  (getProfile c env st).1 = (nilProfile, Some e)
  ∧ trace (getProfile c env st).2
    = trace st ++ [EvOpen (filePath c); EvParseProfiles (Some f); EvClose (Some f)].
Proof.
  intros Hopen Hparse. split.
  - pose proof (getProfile_result c env st) as H. by rewrite Hopen, Hparse in H.
  - by rewrite getProfile_trace, Hopen.
Qed.

Lemma getProfile_parse_error_witness :
  (getProfile exampleCoverage
     (exampleEnvFailing None (λ _, inl exampleModule)
        (λ _, inr (ErrExternal "bad mode line")) (λ _, None) (λ _, None))
     exampleState).1
  = (nilProfile, Some (ErrExternal "bad mode line")).
Proof.
  exact (proj1 (getProfile_parse_error
                  (exampleEnvFailing None (λ _, inl exampleModule)
                     (λ _, inr (ErrExternal "bad mode line")) (λ _, None) (λ _, None))
                  exampleCoverage exampleState
                  (mkFile "/tmp/gremlins-1234/coverage" "mode: set")
                  (ErrExternal "bad mode line") eq_refl eq_refl)).
Defined.

(** X3.  The error of the deferred [Close] is dropped: when the report is
    opened and parsed, [getProfile] returns the parsed profile and no error,
    whatever [Close] answers. *)
Theorem getProfile_ignores_close_error env (c : Coverage) (st : State)
    (f : File) (ps : list cover.Profile) (e : error) :
  env_open env (filePath c) = inl f →
  env_parseProfiles env f = inl ps →
  env_closeErr env f = Some e →
  ∃ profile,
    (getProfile c env st).1 = (profile, None)
    ∧ holds (λ fn, blocksFor env c fn ps) profile
    ∧ (File_Close (Some f) env st).1 = Some e.
Proof.
  intros Hopen Hparse Hclose.
  pose proof (getProfile_result c env st) as H. rewrite Hopen, Hparse in H.
  destruct H as (profile & Hholds & Hres). exists profile.
  split; [done|split; [done|]].
  unfold File_Close. eval_m. by rewrite Hclose.
Qed.

Lemma getProfile_ignores_close_error_witness :
  ∃ profile,
    (getProfile exampleCoverage
       (exampleEnvFailing None (λ _, inl exampleModule) (λ _, inl exampleReport)
          (λ _, Some (ErrExternal "file already closed")) (λ _, None))
       exampleState).1 = (profile, None)
    ∧ profile !! "a.go" = Some [mkBlock 3 1 5 2].
Proof.
  destruct (getProfile_ignores_close_error
              (exampleEnvFailing None (λ _, inl exampleModule)
                 (λ _, inl exampleReport)
                 (λ _, Some (ErrExternal "file already closed")) (λ _, None))
              exampleCoverage exampleState
              (mkFile "/tmp/gremlins-1234/coverage" "mode: set") exampleReport
              (ErrExternal "file already closed") eq_refl eq_refl eq_refl)
    as (profile & Hres & Hholds & _).
  exists profile. split; [exact Hres|]. by rewrite (Hholds "a.go").
Defined.

Lemma countEvents_coverageCalls (P : Event → bool) env (c : Coverage) :
  (∀ e, isCoverageEvent e = true → P e = false) →
  countEvents P (coverageCalls env c) = 0%nat.
Proof.
  intros HP. apply (countEvents_none P isCoverageEvent); [done|].
  unfold coverageCalls.
  destruct (env_runErr env (downloadCmd c)); [by repeat constructor|].
  destruct (env_runErr env (coverageCmd c)); [by repeat constructor|].
  destruct (env_open env (filePath c)); by repeat constructor.
Qed.

(** ** The pipeline *)

Lemma run_module_error (ctx : Context) (workDir currPath : string) env st
    (e : error) :
  env_moduleInit env currPath = inr e →
  run ctx workDir currPath env st
  = ((report.zero, Some (Errorf "%q is not in a Go module: %w" [currPath] e)),
     (call (EvModuleInit currPath) env st).2).
Proof.
  intros Hmod. unfold run, gomodule_Init. eval_m. by rewrite Hmod.
Qed.

Lemma run_coverage_error (ctx : Context) (workDir currPath : string) env st
    (m : gomodule.GoModule) (step : CoverageStep) (e : error) :
  env_moduleInit env currPath = inl m →
  firstFailure env (coverageOf env workDir m) = Some (step, e) →
  (run ctx workDir currPath env st).1
  = (report.zero,
     Some (Errorf "failed to gather coverage: %w" []
             (Errorf (stepFormat step) [] e)))
  ∧ trace (run ctx workDir currPath env st).2
    = trace st ++ [EvModuleInit currPath]
        ++ coverageCalls env (coverageOf env workDir m).
Proof.
  intros Hmod Hff. rewrite (run_eq ctx workDir currPath env st m Hmod). cbn zeta.
  change (New workDir m [] env st).1 with (coverageOf env workDir m).
  set (c := coverageOf env workDir m) in *.
  set (st0 := (call (EvModuleInit currPath) env st).2).
  pose proof (Run_result c env st0) as Hr. rewrite Hff in Hr.
  pose proof (Run_trace c env st0) as Ht.
  destruct (Run c env st0) as [[r err] s1]. cbn [fst snd] in *.
  injection Hr as -> ->. split; [done|].
  cbn [snd]. rewrite Ht. cbn. by rewrite <- app_assoc.
Qed.

Lemma run_success (ctx : Context) (workDir currPath : string) env st
    (m : gomodule.GoModule) :
  env_moduleInit env currPath = inl m →
  firstFailure env (coverageOf env workDir m) = None →
  ∃ r f ps,
    (run ctx workDir currPath env st).1
    = (env_mutatorRun env ctx workDir m r, None)
    ∧ Elapsed r = env_duration env (EvExec (coverageCmd (coverageOf env workDir m)))
    ∧ env_open env (filePath (coverageOf env workDir m)) = inl f
    ∧ env_parseProfiles env f = inl ps
    ∧ holds (λ fn, blocksFor env (coverageOf env workDir m) fn ps) (ResultProfile r)
    ∧ trace (run ctx workDir currPath env st).2
      = trace st ++ [EvModuleInit currPath]
          ++ coverageCalls env (coverageOf env workDir m)
          ++ [EvMutatorRun ctx workDir m r].
Proof.
  intros Hmod Hff. rewrite (run_eq ctx workDir currPath env st m Hmod). cbn zeta.
  change (New workDir m [] env st).1 with (coverageOf env workDir m).
  set (c := coverageOf env workDir m) in *.
  set (st0 := (call (EvModuleInit currPath) env st).2).
  pose proof (Run_result c env st0) as Hr. rewrite Hff in Hr.
  destruct Hr as (f & ps & profile & Hopen & Hparse & Hholds & Hr).
  pose proof (Run_trace c env st0) as Ht.
  destruct (Run c env st0) as [[r err] s1]. cbn [fst snd] in *.
  injection Hr as -> ->. eexists _, f, ps.
  split; [reflexivity|]. split; [reflexivity|].
  do 3 (split; [done|]).
  cbn. rewrite Ht. cbn. by rewrite <- !app_assoc.
Qed.

(** X4.  When the directory is not inside a Go module, [run] returns empty
    results and the error of the module lookup, wrapped with the path; the
    lookup is the only call it has made: no command is run. *)
Theorem run_outside_module env (ctx : Context) (workDir currPath : string)
    (st : State) (e : error) :
  env_moduleInit env currPath = inr e →
  (run ctx workDir currPath env st).1
  = (report.zero, Some (Errorf "%q is not in a Go module: %w" [currPath] e))
  ∧ trace (run ctx workDir currPath env st).2 = trace st ++ [EvModuleInit currPath].
Proof. intros Hmod. by rewrite (run_module_error _ _ _ _ _ e Hmod). Qed.

Lemma run_outside_module_witness :
  (run ctxLive "/tmp/gremlins-1234" "/home/dev"
     (exampleEnvFailing None (λ _, inr (ErrExternal "go.mod file not found"))
        (λ _, inl exampleReport) (λ _, None) (λ _, None))
     exampleState).1
  = (report.zero,
     Some (Errorf "%q is not in a Go module: %w" ["/home/dev"]
             (ErrExternal "go.mod file not found"))).
Proof.
  exact (proj1 (run_outside_module
                  (exampleEnvFailing None
                     (λ _, inr (ErrExternal "go.mod file not found"))
                     (λ _, inl exampleReport) (λ _, None) (λ _, None))
                  ctxLive "/tmp/gremlins-1234" "/home/dev" exampleState
                  (ErrExternal "go.mod file not found") eq_refl)).
Defined.

(** X5.  When the module is found and no step of the coverage phase fails,
    [run] looks the module up, gathers the coverage and then calls the
    mutator once, with the context, the work directory, the module and the
    coverage result (the parsed profile and the time the tests took); it
    returns what the mutator returns, with no error. *)
Theorem run_mutates_after_coverage env (ctx : Context) (workDir currPath : string)
    (st : State) (m : gomodule.GoModule) :
  env_moduleInit env currPath = inl m →
  firstFailure env (coverageOf env workDir m) = None →
  ∃ r f ps,
    (run ctx workDir currPath env st).1
    = (env_mutatorRun env ctx workDir m r, None)
    ∧ Elapsed r = env_duration env (EvExec (coverageCmd (coverageOf env workDir m)))
    ∧ env_open env (filePath (coverageOf env workDir m)) = inl f
    ∧ env_parseProfiles env f = inl ps
    ∧ holds (λ fn, blocksFor env (coverageOf env workDir m) fn ps) (ResultProfile r)
    ∧ trace (run ctx workDir currPath env st).2
      = trace st ++ [EvModuleInit currPath]
          ++ coverageCalls env (coverageOf env workDir m)
          ++ [EvMutatorRun ctx workDir m r].
Proof. apply run_success. Qed.

Lemma run_mutates_after_coverage_witness :
  ∃ r,
    (run ctxLive "/tmp/gremlins-1234" "/home/dev" exampleEnv exampleState).1
    = (env_mutatorRun exampleEnv ctxLive "/tmp/gremlins-1234" exampleModule r, None)
    ∧ Elapsed r = 2000.
Proof.
  destruct (run_mutates_after_coverage exampleEnv ctxLive "/tmp/gremlins-1234"
              "/home/dev" exampleState exampleModule)
    as (r & f & ps & Hres & Hel & _); [vm_compute; reflexivity ..|].
  exists r. split; [exact Hres | exact Hel].
Defined.

(** X6.  An error never comes with a partial value: whenever [Run] returns
    an error its result is the zero [Result], and whenever [run] returns an
    error its results are the zero [Results]. *)
Theorem errors_come_with_zero_values env (c : Coverage) (ctx : Context)
    (workDir currPath : string) (st : State) :
  ((Run c env st).1.2 ≠ None → (Run c env st).1.1 = zeroResult)
  ∧ ((run ctx workDir currPath env st).1.2 ≠ None
     → (run ctx workDir currPath env st).1.1 = report.zero).
Proof.
  split.
  - pose proof (Run_result c env st) as H.
    destruct (firstFailure env c) as [[step e]|].
    + by rewrite H.
    + destruct H as (f & ps & profile & _ & _ & _ & H). by rewrite H.
  - destruct (env_moduleInit env currPath) as [m|e] eqn:Hmod.
    + destruct (firstFailure env (coverageOf env workDir m)) as [[step e]|] eqn:Hff.
      * destruct (run_coverage_error ctx workDir currPath env st m step e Hmod Hff)
          as [H _]. by rewrite H.
      * destruct (run_success ctx workDir currPath env st m Hmod Hff)
          as (r & f & ps & H & _). by rewrite H.
    + by rewrite (run_module_error _ _ _ _ _ e Hmod).
Qed.

Lemma errors_come_with_zero_values_witness :
  (run ctxLive "/tmp/gremlins-1234" "/home/dev"
     (exampleEnvWith EmptyString (λ _, None) (λ _, inr (ErrExternal "no such file")))
     exampleState).1.1 = report.zero.
Proof.
  apply (proj2 (errors_come_with_zero_values
                  (exampleEnvWith EmptyString (λ _, None)
                     (λ _, inr (ErrExternal "no such file")))
                  exampleCoverage ctxLive "/tmp/gremlins-1234" "/home/dev"
                  exampleState)).
  by vm_compute.
Defined.

(** ** The command *)

Lemma run_result_err_cases (ctx : Context) (workDir currPath : string) env st :
  match runError env workDir currPath with
  | Some e =>
      (run ctx workDir currPath env st).1.2 = Some e
      ∧ ∃ evs, trace (run ctx workDir currPath env st).2 = trace st ++ evs
               ∧ countEvents isMutatorRun evs = 0%nat
  | None =>
      ∃ m r, (run ctx workDir currPath env st).1
             = (env_mutatorRun env ctx workDir m r, None)
             ∧ ∃ evs, trace (run ctx workDir currPath env st).2
                      = trace st ++ evs ++ [EvMutatorRun ctx workDir m r]
                      ∧ countEvents isMutatorRun evs = 0%nat
  end.
Proof.
  unfold runError. destruct (env_moduleInit env currPath) as [m|e] eqn:Hmod.
  - destruct (firstFailure env (coverageOf env workDir m)) as [[step e]|] eqn:Hff.
    + destruct (run_coverage_error ctx workDir currPath env st m step e Hmod Hff)
        as [H Ht]. rewrite H. split; [done|]. eexists. split; [exact Ht|].
      rewrite countEvents_app, countEvents_coverageCalls by (by intros []). done.
    + destruct (run_success ctx workDir currPath env st m Hmod Hff)
        as (r & f & ps & H & _ & _ & _ & _ & Ht).
      exists m, r. split; [done|].
      exists ([EvModuleInit currPath] ++ coverageCalls env (coverageOf env workDir m)).
      split; [by rewrite Ht, <- !app_assoc|].
      rewrite countEvents_app, countEvents_coverageCalls by (by intros []). done.
  - rewrite (run_module_error _ _ _ _ _ e Hmod). split; [done|].
    by exists [EvModuleInit currPath].
Qed.

Lemma runUnleash_body_eq (ctx : Context) (workDir currPath : string) env st :
  (runUnleash_body ctx workDir currPath env st).1
  = match (run ctx workDir currPath env st).1.2 with
    | Some e => Some e
    | None =>
        match ctx with
        | ctxDone true => None
        | _ => env_reportDo env (run ctx workDir currPath env st).1.1
        end
    end
  ∧ trace (runUnleash_body ctx workDir currPath env st).2
    = trace (run ctx workDir currPath env st).2
        ++ match (run ctx workDir currPath env st).1.2, ctx with
           | Some _, _ => []
           | None, ctxDone true => []
           | None, _ => [EvReportDo (run ctx workDir currPath env st).1.1]
           end.
Proof.
  unfold runUnleash_body, runWithCancel, report_Do, log_Infof, log_write.
  rewrite !bind_eq.
  destruct (run ctx workDir currPath env st) as [[res [e|]] s1];
    destruct ctx as [|[]]; eval_m; cbn; by rewrite ?app_nil_r.
Qed.

(** X7.  In a run whose setup succeeds, whose pipeline returns no error and
    in which [cancelled] is not set when it is read, the command calls the
    mutator once, then [report.Do] once with the results of the mutator, then
    cleans up; what [report.Do] returns is what the command returns. *)
Theorem unleash_reports_results env (ctx : Context) (args : list string)
    (st : State) :
  changePathErr env args st = None →
  env_mkdirTempErr env = None →
  runError env (workRoot env) (currPathOf env args st) = None →
  ctx ≠ ctxDone true →
  ∃ m r evs,
    (runUnleash ctx args env st).1
    = env_reportDo env (env_mutatorRun env ctx (workRoot env) m r)
    ∧ trace (runUnleash ctx args env st).2
      = trace st ++ evs
          ++ [EvMutatorRun ctx (workRoot env) m r;
              EvReportDo (env_mutatorRun env ctx (workRoot env) m r);
              EvChdir (cwd st); EvRemoveAll (workRoot env)]
    ∧ countEvents isMutatorRun evs = 0%nat
    ∧ countEvents isReportDo evs = 0%nat.
Proof.
  intros Hcp Hmk Herr Hctx.
  destruct (runUnleash_started ctx args env st Hcp Hmk)
    as (st1 & _ & (evs1 & Htr1 & Hall1) & Hrun).
  rewrite Hrun. cbn [fst snd].
  set (wd := workRoot env) in *. set (cp := currPathOf env args st) in *.
  destruct (runUnleash_body_eq ctx wd cp env st1) as [Hres Htr2].
  destruct (cleanUp_spec wd (cwd st) env (runUnleash_body ctx wd cp env st1).2)
    as (Htr3 & _ & _).
  pose proof (run_result_err_cases ctx wd cp env st1) as Hcases.
  rewrite Herr in Hcases. destruct Hcases as (m & r & Hr & evs2 & Htr & Hno).
  destruct (run_preserves ctx wd cp env st1) as (_ & _ & evs2' & Htr' & Hall2).
  rewrite Hr in Hres, Htr2. cbn [fst snd] in Hres, Htr2.
  exists m, r, (evs1 ++ [EvMkdirTemp (env_tempDir env) "gremlins-"] ++ evs2).
  assert (Hlive : ∀ A (x y : A),
             match ctx with ctxDone true => x | _ => y end = y).
  { intros A x y. by destruct ctx as [|[]]. }
  rewrite Hlive in Hres, Htr2.
  split; [exact Hres|]. split.
  - rewrite Htr3, Htr2, Htr, Htr1. by rewrite <- !app_assoc.
  - rewrite !countEvents_app, Hno.
    rewrite (countEvents_setup isMutatorRun evs1) by done.
    rewrite (countEvents_setup isReportDo evs1) by done.
    assert (Hrep : countEvents isReportDo evs2 = 0%nat).
    { rewrite Htr in Htr'. apply app_inv_head in Htr'. subst evs2'.
      apply Forall_app in Hall2 as [Hall2 _].
      by apply countEvents_pipeline. }
    rewrite Hrep. done.
Qed.

Lemma unleash_reports_results_witness :
  ∃ m r evs,
    (runUnleash ctxLive [] exampleEnv exampleState).1
    = env_reportDo exampleEnv
        (env_mutatorRun exampleEnv ctxLive "/tmp/gremlins-1234" m r)
    ∧ trace (runUnleash ctxLive [] exampleEnv exampleState).2
      = evs ++ [EvMutatorRun ctxLive "/tmp/gremlins-1234" m r;
                EvReportDo (env_mutatorRun exampleEnv ctxLive "/tmp/gremlins-1234" m r);
                EvChdir "/home/dev"; EvRemoveAll "/tmp/gremlins-1234"].
Proof.
  destruct (unleash_reports_results exampleEnv ctxLive [] exampleState)
    as (m & r & evs & Hres & Htr & _);
    [vm_compute; reflexivity .. | discriminate |].
  exists m, r, evs. split; [exact Hres | exact Htr].
Defined.

(** X8.  In a run whose setup succeeds and whose pipeline returns an error,
    the command returns that error, whether or not the run was cancelled; it
    calls neither the mutator nor [report.Do], and it still cleans up. *)
Theorem unleash_pipeline_error env (ctx : Context) (args : list string)
    (st : State) (e : error) :
  changePathErr env args st = None →
  env_mkdirTempErr env = None →
  runError env (workRoot env) (currPathOf env args st) = Some e →
  (runUnleash ctx args env st).1 = Some e
  ∧ countEvents isMutatorRun (trace (runUnleash ctx args env st).2)
    = countEvents isMutatorRun (trace st)
  ∧ countEvents isReportDo (trace (runUnleash ctx args env st).2)
    = countEvents isReportDo (trace st)
  ∧ ∃ evs, trace (runUnleash ctx args env st).2
           = trace st ++ evs ++ [EvChdir (cwd st); EvRemoveAll (workRoot env)].
Proof.
  intros Hcp Hmk Herr.
  destruct (runUnleash_started ctx args env st Hcp Hmk)
    as (st1 & _ & (evs1 & Htr1 & Hall1) & Hrun).
  rewrite Hrun. cbn [fst snd].
  set (wd := workRoot env) in *. set (cp := currPathOf env args st) in *.
  destruct (runUnleash_body_eq ctx wd cp env st1) as [Hres Htr2].
  destruct (cleanUp_spec wd (cwd st) env (runUnleash_body ctx wd cp env st1).2)
    as (Htr3 & _ & _).
  pose proof (run_result_err_cases ctx wd cp env st1) as Hcases.
  rewrite Herr in Hcases. destruct Hcases as (Hr & evs2 & Htr & Hno).
  destruct (run_preserves ctx wd cp env st1) as (_ & _ & evs2' & Htr' & Hall2).
  rewrite Htr in Htr'. apply app_inv_head in Htr'. subst evs2'.
  rewrite Hr in Hres, Htr2. rewrite app_nil_r in Htr2.
  split; [exact Hres|].
  rewrite Htr3, Htr2, Htr, Htr1. rewrite !countEvents_app, Hno.
  rewrite (countEvents_pipeline evs2 Hall2).
  rewrite (countEvents_setup isMutatorRun evs1) by done.
  rewrite (countEvents_setup isReportDo evs1) by done.
  split; [cbn; lia|]. split; [cbn; lia|].
  exists (evs1 ++ [EvMkdirTemp (env_tempDir env) "gremlins-"] ++ evs2).
  by rewrite <- !app_assoc.
Qed.

Lemma unleash_pipeline_error_witness :
  (runUnleash (ctxDone true) []
     (exampleEnvWith EmptyString (λ _, None) (λ _, inr (ErrExternal "no such file")))
     exampleState).1
  = Some (Errorf "failed to gather coverage: %w" []
            (Errorf "an error occurred while generating coverage profile: %w" []
               (ErrExternal "no such file"))).
Proof.
  refine (proj1 (unleash_pipeline_error
                   (exampleEnvWith EmptyString (λ _, None)
                      (λ _, inr (ErrExternal "no such file")))
                   (ctxDone true) [] exampleState
                   (Errorf "failed to gather coverage: %w" []
                      (Errorf "an error occurred while generating coverage profile: %w"
                         [] (ErrExternal "no such file"))) _ _ _));
    vm_compute; reflexivity.
Defined.

(** X9.  When the work root cannot be created, the command returns the
    error of [os.MkdirTemp], wrapped; [os.MkdirTemp] is its last call: the
    clean-up is not run, so nothing is removed and the working directory
    stays where [changePath] moved it. *)
Theorem unleash_mkdir_failure env (ctx : Context) (args : list string)
    (st : State) (e : error) :
  changePathErr env args st = None →
  env_mkdirTempErr env = Some e →
  (runUnleash ctx args env st).1
  = Some (Errorf "impossible to create the workdir: %w" [] e)
  ∧ tempDirs (runUnleash ctx args env st).2 = tempDirs st
  ∧ cwd (runUnleash ctx args env st).2
    = (if decide (currPathOf env args st ≠ ".")
       then currPathOf env args st else cwd st)
  ∧ ∃ evs, trace (runUnleash ctx args env st).2
           = trace st ++ evs ++ [EvMkdirTemp (env_tempDir env) "gremlins-"]
           ∧ countEvents isRemoveAll evs = 0%nat.
Proof.
  intros Hcp Hmk. unfold runUnleash, log_Infoln.
  rewrite bind_eq. cbn [log_write modify fst snd]. rewrite bind_eq.
  match goal with
  | |- context [changePath args os_Chdir os_Getwd env ?s] =>
      set (st0 := s);
      destruct (changePath_spec args env st0)
        as (Hres & Htmp & Hcwd & evs & Htr & Hall)
  end.
  change (changePathErr env args st0) with (changePathErr env args st) in Hres, Hcwd.
  change (currPathOf env args st0) with (currPathOf env args st) in Hres, Hcwd.
  rewrite Hcp in Hres, Hcwd. cbn [cwd st0] in Hres, Hcwd.
  destruct (changePath args os_Chdir os_Getwd env st0) as [[[cp rd] err] s1].
  cbn [fst snd] in *. simplify_eq.
  unfold os_TempDir, os_MkdirTemp. rewrite !bind_eq.
  cbn [ask call fst snd]. rewrite Hmk. cbn [mret M_ret fst snd tempDirs cwd trace].
  rewrite Htmp, Hcwd. do 3 (split; [done|]).
  exists evs. rewrite Htr. split; [by rewrite <- app_assoc|].
  by apply countEvents_setup.
Qed.

Lemma unleash_mkdir_failure_witness :
  (runUnleash ctxLive ["/src/m"]
     (exampleEnvFailing (Some (ErrExternal "no space left on device"))
        (λ _, inl exampleModule) (λ _, inl exampleReport) (λ _, None) (λ _, None))
     exampleState).1
  = Some (Errorf "impossible to create the workdir: %w" []
            (ErrExternal "no space left on device"))
  ∧ cwd (runUnleash ctxLive ["/src/m"]
           (exampleEnvFailing (Some (ErrExternal "no space left on device"))
              (λ _, inl exampleModule) (λ _, inl exampleReport) (λ _, None)
              (λ _, None))
           exampleState).2 = "/src/m".
Proof.
  destruct (unleash_mkdir_failure
              (exampleEnvFailing (Some (ErrExternal "no space left on device"))
                 (λ _, inl exampleModule) (λ _, inl exampleReport) (λ _, None)
                 (λ _, None))
              ctxLive ["/src/m"] exampleState
              (ErrExternal "no space left on device"))
    as (Hres & _ & Hcwd & _); [vm_compute; reflexivity ..|].
  split; [exact Hres | exact Hcwd].
Defined.

(** X10.  [cleanUp] is best effort: it always calls [os.Chdir] and then
    [os.RemoveAll], also when [os.Chdir] fails; a call that fails leaves the
    state as it was and is logged as one error line, which names the work
    directory in both cases; nothing is returned to the caller. *)
Theorem cleanUp_best_effort env (wd rd : string) (st : State) :
  trace (cleanUp wd rd env st).2 = trace st ++ [EvChdir rd; EvRemoveAll wd]
  ∧ logged (cleanUp wd rd env st).2 = logged st ++ cleanUpLog env wd rd
  ∧ cwd (cleanUp wd rd env st).2
    = match env_chdirErr env rd with Some _ => cwd st | None => rd end
  ∧ tempDirs (cleanUp wd rd env st).2
    = match env_removeAllErr env wd with
      | Some _ => tempDirs st
      | None => tempDirs st ∖ {[wd]}
      end.
Proof.
  unfold cleanUpLog, cleanUp, os_Chdir, os_RemoveAll, setCwd, setTempDirs,
    log_Errorf, log_write, call.
  monad_unfold.
  destruct (env_chdirErr env rd) as [e1|] eqn:H1; cbn; rewrite ?H1; cbn;
    destruct (env_removeAllErr env wd) as [e2|] eqn:H2; cbn; rewrite ?H2; cbn;
    rewrite <- ?app_assoc, ?app_nil_r; done.
Qed.

(** X11.  [changePath] asks for the current directory first; when that
    fails, whatever [getwd] and [chdir] it was given, it returns the error
    with empty paths and does not call [chdir].  With [os.Getwd] and
    [os.Chdir] it returns the directory it moved to (the absolute path of the
    first argument, or the current directory when there is none) and the
    directory that was current before; it calls [os.Chdir] exactly when the
    target is not ["."], and when [os.Chdir] fails it returns that error with
    empty paths and the working directory is unchanged. *)
Theorem changePath_outcome env (args : list string) (st : State) :
  (∀ (chdir : string → M (option error)) (getwd : M (string * option error))
     (d : string) (e : error) (st1 : State),
     getwd env st = ((d, Some e), st1) →
     changePath args chdir getwd env st
     = ((EmptyString, EmptyString, Some e), st1))
  ∧ (changePath args os_Chdir os_Getwd env st).1
    = match changePathErr env args st with
      | Some e => (EmptyString, EmptyString, Some e)
      | None => (currPathOf env args st, cwd st, None)
      end
  ∧ cwd (changePath args os_Chdir os_Getwd env st).2
    = match changePathErr env args st with
      | Some _ => cwd st
      | None =>
          if decide (currPathOf env args st ≠ ".")
          then currPathOf env args st else cwd st
      end
  ∧ trace (changePath args os_Chdir os_Getwd env st).2
    = trace st ++ EvGetwd
        :: match env_getwdErr env with
           | Some _ => []
           | None =>
               EvGetwd :: (if decide (currPathOf env args st ≠ ".")
                           then [EvChdir (currPathOf env args st)] else [])
           end.
Proof.
  split.
  { intros chdir getwd d e st1 Hwd. unfold changePath.
    rewrite bind_eq, Hwd. reflexivity. }
  destruct (changePath_spec args env st) as (Hres & _ & Hcwd & _).
  split; [exact Hres|]. split; [exact Hcwd|]. clear Hres Hcwd.
  assert (Hcp : ∃ aerr, match args with
                        | [] => (cwd st, None)
                        | a0 :: _ => env_filepathAbs env (cwd st) a0
                        end = (currPathOf env args st, aerr)).
  { unfold currPathOf. destruct args as [|a0 args]; [by eexists|].
    destruct (env_filepathAbs env (cwd st) a0). by eexists. }
  destruct Hcp as [aerr Hcp].
  set (cp := currPathOf env args st) in *. clearbody cp.
  unfold changePath, os_Getwd, os_Chdir, filepath_Abs, setCwd, call.
  monad_unfold.
  destruct (env_getwdErr env) as [e|] eqn:Hwd; [done|].
  cbn. rewrite Hwd. cbn.
  destruct args as [|a0 args]; cbn; rewrite ?Hcp; simplify_eq; cbn;
    match goal with
    | |- context [decide (?x ≠ ".")] =>
        destruct (decide (x ≠ ".")) as [Hne|Heq]; cbn;
        [destruct (env_chdirErr env x) as [e|] eqn:Hcd; cbn; rewrite ?Hcd; cbn|]
    end; by rewrite <- ?app_assoc.
Qed.

(** ** The key of a report entry *)

Lemma prefix_app (old rest : string) : String.prefix old (old +:+ rest) = true.
Proof.
  induction old as [|a old IH]; [apply prefix_empty|].
  simpl. by destruct (ascii_dec a a).
Qed.

Lemma containsString_prefix (old s : string) :
  containsString old s = false → String.prefix old s = false.
Proof. destruct s; cbn; intros H; by apply orb_false_elim in H as [? _]. Qed.

Lemma replaceAll_scan_absent (old new s : string) :
  containsString old s = false → replaceAll_scan old new 0 s = s.
Proof.
  induction s as [|c s IH]; [done|]. intros H.
  pose proof (containsString_prefix _ _ H) as Hp.
  cbn [containsString] in H. apply orb_false_elim in H as [_ H].
  cbn [replaceAll_scan]. rewrite Hp. by rewrite IH.
Qed.

Lemma replaceAll_scan_skip (old new pre s : string) :
  replaceAll_scan old new (String.length pre) (pre +:+ s)
  = replaceAll_scan old new 0 s.
Proof. induction pre as [|c pre IH]; [done|]. exact IH. Qed.

Lemma ReplaceAll_leading (a : ascii) (old' new rest : string) :
  containsString (String a old') rest = false →
  strings_ReplaceAll (String a old' +:+ rest) (String a old') new = new +:+ rest.
Proof.
  intros H. unfold strings_ReplaceAll.
  change (String a old' +:+ rest) with (String a (old' +:+ rest)).
  cbn [replaceAll_scan].
  change (String a (old' +:+ rest)) with (String a old' +:+ rest).
  rewrite prefix_app.
  replace (String.length (String a old') - 1)%nat with (String.length old')
    by (simpl; lia).
  by rewrite replaceAll_scan_skip, replaceAll_scan_absent.
Qed.

Lemma dropString_app (old rest : string) :
  dropString (String.length old) (old +:+ rest) = rest.
Proof. induction old as [|a old IH]; [done|]. exact IH. Qed.

Lemma TrimPrefix_leading (old rest : string) :
  strings_TrimPrefix (old +:+ rest) old = rest.
Proof. unfold strings_TrimPrefix. by rewrite prefix_app, dropString_app. Qed.

Lemma moduleSlash_nonempty (name : string) :
  ∃ a old', name +:+ "/" = String a old'.
Proof. destruct name as [|a name]; by eexists _, _. Qed.

(** X12.  For a report entry whose file path is the module name, a ['/']
    and a rest in which the module name followed by ['/'] does not occur
    again, [removeModuleFromPath] hands exactly that rest to [filepath.Rel]:
    there the key is the module-relative path, made relative to the package
    directory.  A file path in which the module name followed by ['/'] does
    not occur at all is handed over unchanged. *)
Theorem removeModuleFromPath_leading_module env (c : Coverage) (p : cover.Profile)
    (rest : string) (st : State) :
  (cover.FileName p = (gomodule.Name (mod_ c) +:+ "/") +:+ rest →
   containsString (gomodule.Name (mod_ c) +:+ "/") rest = false →
   (removeModuleFromPath c p env st).1
   = (env_filepathRel env (gomodule.PkgDir (mod_ c)) rest).1
   ∧ profileKey env c p = moduleRelativeKey env c p)
  ∧ (containsString (gomodule.Name (mod_ c) +:+ "/") (cover.FileName p) = false →
     (removeModuleFromPath c p env st).1
     = (env_filepathRel env (gomodule.PkgDir (mod_ c)) (cover.FileName p)).1
     ∧ profileKey env c p = moduleRelativeKey env c p).
Proof.
  rewrite removeModuleFromPath_eq. cbn [fst].
  unfold profileKey, moduleRelativeKey.
  destruct (moduleSlash_nonempty (gomodule.Name (mod_ c))) as (a & old' & Hold).
  rewrite Hold. split.
  - intros Hname Habsent. rewrite Hname.
    rewrite ReplaceAll_leading by done. by rewrite TrimPrefix_leading.
  - intros Habsent. unfold strings_ReplaceAll, strings_TrimPrefix.
    rewrite replaceAll_scan_absent by done.
    by rewrite (containsString_prefix _ _ Habsent).
Qed.

Lemma removeModuleFromPath_leading_module_witness :
  (removeModuleFromPath exampleCoverage
     (cover.mkProfile "example.com/m/sub/b.go" "set" []) exampleEnv exampleState).1
  = "sub/b.go".
Proof.
  refine (proj1 (proj1 (removeModuleFromPath_leading_module exampleEnv
                          exampleCoverage
                          (cover.mkProfile "example.com/m/sub/b.go" "set" [])
                          "sub/b.go" exampleState) _ _));
    vm_compute; reflexivity.
Defined.

(** ** The normalisation of flag names *)

Lemma dashSeparator_idempotent (c : ascii) :
  dashSeparator (dashSeparator c) = dashSeparator c.
Proof. by destruct c as [[] [] [] [] [] [] [] []]. Qed.

Lemma mapString_length (f : ascii → ascii) (s : string) :
  String.length (mapString f s) = String.length s.
Proof. induction s as [|c s IH]; [done|]. cbn. by rewrite IH. Qed.

Lemma dashSeparator_fixed (c : ascii) :
  dashSeparator c = c
  ↔ bool_decide (c = "."%char) = false ∧ bool_decide (c = "_"%char) = false.
Proof.
  unfold dashSeparator.
  destruct (ascii_dec c ".") as [->|H1].
  { split; [discriminate|]. by intros [? _]. }
  destruct (ascii_dec c "_") as [->|H2].
  { split; [discriminate|]. by intros [_ ?]. }
  split; [|done]. intros _. split; by apply bool_decide_eq_false.
Qed.

(** X13.  The normalisation of flag names is idempotent and keeps the
    length of the name; it leaves a name unchanged exactly when the name
    holds neither ['.'] nor ['_']. *)
Theorem normalizeFunc_idempotent (name : string) :
  normalizeFunc (normalizeFunc name) = normalizeFunc name
  ∧ String.length (normalizeFunc name) = String.length name
  ∧ (normalizeFunc name = name
     ↔ occursIn "."%char name = false ∧ occursIn "_"%char name = false).
Proof.
  rewrite !normalizeFunc_mapString. split; [|split].
  - rewrite mapString_compose. apply mapString_ext, dashSeparator_idempotent.
  - apply mapString_length.
  - induction name as [|c name IH]; [done|].
    cbn [mapString occursIn]. rewrite !orb_false_iff.
    split.
    + intros H. injection H as Hc Hn.
      apply dashSeparator_fixed in Hc as [? ?]. apply IH in Hn as [? ?]. done.
    + intros [[Hc1 Hn1] [Hc2 Hn2]]. f_equal.
      * by apply dashSeparator_fixed.
      * by apply IH.
Qed.

(** ** The registration of the flags *)

Lemma flags_Set_eq (cmd : Command) (f : flags.Flag) env st :
  flags_Set cmd f env st
  = (match env_flagSetErr env f with
     | Some e => (cmd, Some e)
     | None => (withFlags cmd (Flags cmd ++ [f]), None)
     end, st).
Proof.
  unfold flags_Set. rewrite bind_eq. cbn [ask fst snd].
  by destruct (env_flagSetErr env f).
Qed.

Lemma withFlags_withFlags (cmd : Command) (l1 l2 : list flags.Flag) :
  withFlags (withFlags cmd l1) l2 = withFlags cmd l2.
Proof. reflexivity. Qed.

Lemma setFlags_kinds_eq (mts : list mutant.Type_) :
  ∀ (cmd : Command) env st,
    Forall (λ k, env_flagSetErr env (kindFlag env k) = None) mts →
    setFlags cmd (mutantTypeFlag <$> mts) env st
    = ((withFlags cmd (Flags cmd ++ (kindFlag env <$> mts)), None), st).
Proof.
  induction mts as [|mt mts IH]; intros cmd env st Hall.
  - cbn. rewrite app_nil_r. by destruct cmd.
  - apply Forall_cons in Hall as [Hmt Hall].
    cbn [fmap list_fmap setFlags]. rewrite bind_eq.
    change (mutantTypeFlag mt env st) with (kindFlag env mt, st). cbn [fst snd].
    rewrite bind_eq, flags_Set_eq, Hmt. cbn [fst snd].
    rewrite IH by done. cbn [Flags withFlags]. unfold withFlags. cbn.
    by rewrite <- app_assoc.
Qed.

Lemma setFlags_kinds_stop (pre : list mutant.Type_) (mt : mutant.Type_)
    (post : list mutant.Type_) (e : error) :
  ∀ (cmd : Command) env st,
    Forall (λ k, env_flagSetErr env (kindFlag env k) = None) pre →
    env_flagSetErr env (kindFlag env mt) = Some e →
    setFlags cmd (mutantTypeFlag <$> (pre ++ mt :: post)) env st
    = ((withFlags cmd (Flags cmd ++ (kindFlag env <$> pre)), Some e), st).
Proof.
  induction pre as [|k pre IH]; intros cmd env st Hall Hmt.
  - cbn [app fmap list_fmap setFlags]. rewrite bind_eq.
    change (mutantTypeFlag mt env st) with (kindFlag env mt, st). cbn [fst snd].
    rewrite bind_eq, flags_Set_eq, Hmt. cbn. rewrite app_nil_r. by destruct cmd.
  - apply Forall_cons in Hall as [Hk Hall].
    cbn [app fmap list_fmap setFlags]. rewrite bind_eq.
    change (mutantTypeFlag k env st) with (kindFlag env k, st). cbn [fst snd].
    rewrite bind_eq, flags_Set_eq, Hk. cbn [fst snd].
    change (list_fmap _ _ mutantTypeFlag (pre ++ mt :: post))
      with (mutantTypeFlag <$> (pre ++ mt :: post)).
    rewrite IH by done. unfold withFlags. cbn. by rewrite <- app_assoc.
Qed.

Lemma kindFlag_isKindFlag env (mts : list mutant.Type_) :
  Forall2 (isKindFlag env) mts (kindFlag env <$> mts).
Proof.
  induction mts as [|mt mts IH]; [constructor|].
  cbn. constructor; [|exact IH].
  apply (mutantTypeFlag_isKindFlag mt env
           {| now := 0; cwd := EmptyString; tempDirs := ∅; trace := [];
              logged := [] |}).
Qed.

(** X14.  [setMutantTypeFlags] stops at the first kind whose flag cannot be
    registered: it returns the error of that registration, the flags of the
    kinds before it are registered, in catalog order, and no flag of a later
    kind is. *)
Theorem setMutantTypeFlags_stops_at_first_error env (cmd : Command) (st : State)
    (pre : list mutant.Type_) (mt : mutant.Type_) (post : list mutant.Type_)
    (e : error) :
  mutant_MutantTypes env = pre ++ mt :: post →
  Forall (λ k, env_flagSetErr env (kindFlag env k) = None) pre →
  env_flagSetErr env (kindFlag env mt) = Some e →
  (setMutantTypeFlags cmd env st).1.2 = Some e
  ∧ Flags (setMutantTypeFlags cmd env st).1.1 = Flags cmd ++ (kindFlag env <$> pre)
  ∧ Forall2 (isKindFlag env) pre (kindFlag env <$> pre).
Proof.
  intros Hmts Hpre Hmt. unfold setMutantTypeFlags.
  rewrite bind_eq. cbn [ask fst snd]. rewrite Hmts.
  rewrite (setFlags_kinds_stop pre mt post e cmd env st Hpre Hmt).
  split; [done|]. split; [done|]. apply kindFlag_isKindFlag.
Qed.

Lemma setMutantTypeFlags_stops_at_first_error_witness :
  (setMutantTypeFlags exampleCommand
     (exampleEnvFailing None (λ _, inl exampleModule) (λ _, inl exampleReport)
        (λ _, None) (refuseFlag "increment-decrement"))
     exampleState).1.2 = Some (ErrExternal "flag redefined")
  ∧ flags.Name <$> Flags (setMutantTypeFlags exampleCommand
                            (exampleEnvFailing None (λ _, inl exampleModule)
                               (λ _, inl exampleReport) (λ _, None)
                               (refuseFlag "increment-decrement"))
                            exampleState).1.1
    = ["conditionals-boundary"; "conditionals-negation"].
Proof.
  destruct (setMutantTypeFlags_stops_at_first_error
              (exampleEnvFailing None (λ _, inl exampleModule)
                 (λ _, inl exampleReport) (λ _, None)
                 (refuseFlag "increment-decrement"))
              exampleCommand exampleState
              [mutant.ConditionalsBoundary; mutant.ConditionalsNegation]
              mutant.IncrementsDecrements
              [mutant.InvertNegatives; mutant.ArithmeticBase]
              (ErrExternal "flag redefined"))
    as (Herr & Hflags & _).
  - reflexivity.
  - repeat constructor.
  - vm_compute; reflexivity.
  - split; [exact Herr|]. rewrite Hflags. vm_compute; reflexivity.
Defined.

Lemma setFlags_fixed_eq (cmd : Command) env st :
  Forall (λ f, env_flagSetErr env f = None) (fixedFlags env) →
  setFlags cmd unleashFlags env st
  = ((withFlags cmd (Flags cmd ++ fixedFlags env), None), st).
Proof.
  intros Hall. unfold fixedFlags, unleashFlags in *.
  cbn [fmap list_fmap] in Hall.
  repeat (apply Forall_cons in Hall as [? Hall]).
  cbn [setFlags].
  repeat (rewrite bind_eq;
          match goal with
          | |- context [(?a ≫= ?f) env st] =>
              change ((a ≫= f) env st) with (((a ≫= f) env st).1, st)
          end;
          cbn [fst snd]; rewrite bind_eq, flags_Set_eq;
          match goal with
          | H : env_flagSetErr env ?f = None |- context [env_flagSetErr env ?g] =>
              change (env_flagSetErr env g) with (env_flagSetErr env f); rewrite H
          end; cbn [fst snd]).
  unfold withFlags. cbn. by rewrite <- !app_assoc.
Qed.

(** X15.  When [flags.Set] accepts every flag, [setFlagsOnCmd] turns the
    sorting of the flags off, installs the normalisation of names and
    registers, after the flags already there, first the five flags of its
    table in table order ([dry-run], [tags], [output], [threshold-efficacy],
    [threshold-mcover], the first three with the shorthands [d], [t], [o]) and
    then one flag per mutant kind in catalog order; nothing else of the
    command changes and no error is returned. *)
Theorem setFlagsOnCmd_registration_order env (cmd : Command) (st : State) :
  Forall (λ f, env_flagSetErr env f = None)
    (fixedFlags env ++ (kindFlag env <$> mutant_MutantTypes env)) →
  setFlagsOnCmd cmd env st
  = (({| Use := Use cmd; Aliases := Aliases cmd; MaxArgs := MaxArgs cmd;
         Short := Short cmd; RunE := RunE cmd; SortFlags := false;
         NormalizeFunc := Some normalizeFunc;
         Flags := Flags cmd ++ fixedFlags env
                    ++ (kindFlag env <$> mutant_MutantTypes env) |}, None), st)
  ∧ flags.Name <$> fixedFlags env
    = ["dry-run"; "tags"; "output"; "threshold-efficacy"; "threshold-mcover"]
  ∧ flags.Shorthand <$> fixedFlags env
    = ["d"; "t"; "o"; EmptyString; EmptyString]
  ∧ flags.DefaultV <$> fixedFlags env
    = [flags.VBool false; flags.VString ""; flags.VString "";
       flags.VFloat64 0; flags.VFloat64 0]
  ∧ Forall2 (isKindFlag env) (mutant_MutantTypes env)
      (kindFlag env <$> mutant_MutantTypes env).
Proof.
  intros Hall. apply Forall_app in Hall as [Hfixed Hkinds].
  apply Forall_fmap in Hkinds.
  split; [|split; [reflexivity|split; [reflexivity|split; [reflexivity|]]]].
  - unfold setFlagsOnCmd, setMutantTypeFlags. cbn zeta.
    rewrite bind_eq, (setFlags_fixed_eq _ env st Hfixed). cbn [fst snd].
    rewrite bind_eq. cbn [ask fst snd].
    rewrite (setFlags_kinds_eq _ _ env st Hkinds).
    unfold withFlags. cbn. by rewrite <- app_assoc.
  - apply kindFlag_isKindFlag.
Qed.

Lemma setFlagsOnCmd_registration_order_witness :
  flags.Name <$> Flags (setFlagsOnCmd exampleCommand exampleEnv exampleState).1.1
  = ["dry-run"; "tags"; "output"; "threshold-efficacy"; "threshold-mcover";
     "conditionals-boundary"; "conditionals-negation"; "increment-decrement";
     "invert-negatives"; "arithmetic-base"].
Proof.
  rewrite (proj1 (setFlagsOnCmd_registration_order exampleEnv exampleCommand
                    exampleState ltac:(repeat constructor))).
  vm_compute; reflexivity.
Defined.

Lemma setFlags_frame (fls : list (M flags.Flag)) :
  ∀ (cmd : Command) env st,
    ∃ l, (setFlags cmd fls env st).1.1 = withFlags cmd (Flags cmd ++ l).
Proof.
  induction fls as [|mf fls IH]; intros cmd env st.
  - exists []. cbn. rewrite app_nil_r. by destruct cmd.
  - cbn [setFlags]. rewrite !bind_eq, flags_Set_eq. cbn [fst snd].
    destruct (env_flagSetErr env _) as [e|].
    + exists []. cbn. rewrite app_nil_r. by destruct cmd.
    + cbn [fst snd].
      match goal with
      | |- context [setFlags ?c fls env ?s] => destruct (IH c env s) as [l Hl]
      end.
      rewrite Hl. eexists (_ :: l). unfold withFlags. cbn.
      by rewrite <- app_assoc.
Qed.

Lemma setFlagsOnCmd_frame (cmd : Command) env st :
  ∃ l, (setFlagsOnCmd cmd env st).1.1
       = {| Use := Use cmd; Aliases := Aliases cmd; MaxArgs := MaxArgs cmd;
            Short := Short cmd; RunE := RunE cmd; SortFlags := false;
            NormalizeFunc := Some normalizeFunc; Flags := Flags cmd ++ l |}.
Proof.
  unfold setFlagsOnCmd, setMutantTypeFlags. cbn zeta. rewrite bind_eq.
  match goal with
  | |- context [setFlags ?c unleashFlags env st] =>
      destruct (setFlags_frame unleashFlags c env st) as [l1 Hl1];
        destruct (setFlags c unleashFlags env st) as [[cmd1 [e|]] st1]
  end; cbn [fst snd] in *; subst cmd1.
  - by exists l1.
  - rewrite bind_eq. cbn [ask fst snd].
    match goal with
    | |- context [setFlags ?c ?fls env st1] =>
        destruct (setFlags_frame fls c env st1) as [l2 Hl2]
    end.
    rewrite Hl2. exists (l1 ++ l2). unfold withFlags. cbn.
    by rewrite <- app_assoc.
Qed.

(** X16.  [newUnleashCmd] returns either a command and no error, or no
    command and the error of the registration of the flags, never both and
    never neither.  The command it returns is used as [unleash [path]], with
    the aliases [run] and [r], takes at most one argument, runs
    [runUnleash] with the context it was built for, keeps its flags in
    registration order and normalises their names. *)
Theorem newUnleashCmd_outcome env (ctx : Context) (st : State) :
  match (newUnleashCmd ctx env st).1 with
  | (Some cmd, None) =>
      Use cmd = "unleash [path]"
      ∧ Aliases cmd = ["run"; "r"]
      ∧ MaxArgs cmd = 1%nat
      ∧ RunE cmd = runUnleash ctx
      ∧ SortFlags cmd = false
      ∧ NormalizeFunc cmd = Some normalizeFunc
  | (None, Some _) => True
  | _ => False
  end.
Proof.
  unfold newUnleashCmd. cbn zeta. rewrite bind_eq.
  match goal with
  | |- context [setFlagsOnCmd ?c env st] =>
      destruct (setFlagsOnCmd_frame c env st) as [l Hl];
        destruct (setFlagsOnCmd c env st) as [[cmd1 [e|]] st1]
  end; cbn [fst snd] in *; [done|].
  subst cmd1. by repeat split.
Qed.

(** ** The report file *)

(** X17.  The test command is told to write its coverage profile to the
    file that [getProfile] opens afterwards: [-coverprofile] is followed by
    [filePath], whatever the build tags are, and [os.Open] is called with
    [filePath]; that file lies directly in the work directory of the
    coverage. *)
Theorem coverprofile_is_opened env (c : Coverage) (st : State) :
  (∃ pre, coverageArgs c = pre ++ ["-coverprofile"; filePath c; path c])
  ∧ (∃ evs, trace (getProfile c env st).2 = trace st ++ EvOpen (filePath c) :: evs)
  ∧ filePath c = workDir c +:+ "/" +:+ fileName c.
Proof.
  split; [|split; [|reflexivity]].
  - unfold coverageArgs. destruct (decide (buildTags c ≠ EmptyString)).
    + by exists ["test"; "-tags"; buildTags c; "-cover"].
    + by exists ["test"; "-cover"].
  - rewrite getProfile_trace. by eexists.
Qed.
